(** * aws-c-s3 client: lifecycle and request pipeline

    A shallow embedding of [source/s3_client.c]:

    - [Client]: construction ([aws_s3_client_new]), reference counting
      ([aws_s3_client_acquire], [aws_s3_client_release]) and the deferred
      release of the client block ([s_s3_client_dec_shutdown_wait_count]).
      The C code mutates one heap block and calls into its collaborators in a
      fixed order, so the functions are written in a small state monad whose
      state holds the block, the connection manager's life cycle and the
      ordered list of calls into collaborators.  Reading the block after
      [aws_mem_release] is a fault of the monad, which is what makes the
      order of the statements of the C function observable.
    - [Pipeline]: the callback chain sign -> acquire connection -> issue
      request -> stream events -> finish.  The collaborators (signer,
      connection manager, HTTP stream) are an environment that holds at most
      one completion callback of the request at a time and delivers events
      to it; the Request object's five handlers are an interface the
      development is parametric in.

    The logging macros and the debug-only [AWS_PRECONDITION] assertions are
    left out. *)

From Stdlib Require Import ZArith List Bool Lia String.
Import ListNotations.
Local Open Scope Z_scope.

(** ** Constants of aws-c-common used by the file *)

Definition AWS_OP_SUCCESS : Z := 0.
Definition AWS_OP_ERR : Z := -1.
Definition AWS_ERROR_SUCCESS : Z := 0.
(** The value is the one of aws-c-common's [enum aws_common_error]; nothing
    below depends on it beyond being the code that is raised. *)
Definition AWS_ERROR_INVALID_ARGUMENT : Z := 34.

(** [size_t] arithmetic: the two counters are [size_t] atomics, and
    [aws_atomic_fetch_sub(..) - 1] is computed in [size_t]. *)
Definition SIZE_MAX : Z := 2 ^ 64 - 1.
Definition size_t (z : Z) : Z := z mod (SIZE_MAX + 1).
Definition uint32_t (z : Z) : Z := z mod 2 ^ 32.

(** [aws_timestamp_convert(t, AWS_TIMESTAMP_SECS, AWS_TIMESTAMP_MILLIS, NULL)]. *)
Definition aws_timestamp_convert_secs_to_millis (t : Z) : Z := t * 1000.

Module Client.

(** *** Data *)

(** [struct aws_s3_client_config], as [aws_s3_client_new] reads it.  A
    pointer that may be [NULL] is an [option]; [void *] user data is an
    address. *)
Record aws_s3_client_config := {
  config_client_bootstrap : option Z;
  config_credentials_provider : option Z;
  config_region : string;
  config_endpoint : string;
  config_shutdown_callback : option Z;
  config_shutdown_callback_user_data : Z
}.

Inductive aws_socket_type := AWS_SOCKET_STREAM | AWS_SOCKET_DGRAM.
Inductive aws_socket_domain := AWS_SOCKET_IPV4 | AWS_SOCKET_IPV6 | AWS_SOCKET_LOCAL.

Record aws_socket_options := {
  socket_type : aws_socket_type;
  socket_domain : aws_socket_domain;
  connect_timeout_ms : Z
}.

(** A pointer to the client: the state below holds one client block. *)
Inductive pointer := NULL | CLIENT.

(** The function of this file that is handed to the connection manager as
    a callback. *)
Inductive client_callback := s_s3_client_connection_manager_shutdown_callback_fn.

(** The options [aws_s3_client_new] fills in. *)
Record aws_http_connection_manager_options := {
  bootstrap : option Z;
  initial_window_size : Z;
  socket_options : aws_socket_options;
  tls_connection_options : option Z;
  proxy_options : option Z;
  host : string;
  port : Z;
  max_connections : Z;
  shutdown_complete_callback : option client_callback;
  shutdown_complete_user_data : pointer
}.

(** [struct aws_s3_client]: the fields the file touches. *)
Record aws_s3_client := {
  allocator : Z;
  ref_count : Z;
  shutdown_wait_count : Z;
  client_bootstrap : option Z;
  credentials_provider : option Z;
  region : option string;
  endpoint : option string;
  connection_manager : option aws_http_connection_manager_options;
  shutdown_callback : option Z;
  shutdown_callback_user_data : Z
}.

(** What [aws_mem_calloc] hands back: a zeroed block. *)
Definition zeroed : aws_s3_client := {|
  allocator := 0; ref_count := 0; shutdown_wait_count := 0;
  client_bootstrap := None; credentials_provider := None;
  region := None; endpoint := None; connection_manager := None;
  shutdown_callback := None; shutdown_callback_user_data := 0
|}.

Definition set_allocator (v : Z) (c : aws_s3_client) : aws_s3_client := {|
  allocator := v; ref_count := ref_count c;
  shutdown_wait_count := shutdown_wait_count c;
  client_bootstrap := client_bootstrap c;
  credentials_provider := credentials_provider c;
  region := region c; endpoint := endpoint c;
  connection_manager := connection_manager c;
  shutdown_callback := shutdown_callback c;
  shutdown_callback_user_data := shutdown_callback_user_data c
|}.

Definition set_ref_count (v : Z) (c : aws_s3_client) : aws_s3_client := {|
  allocator := allocator c; ref_count := v;
  shutdown_wait_count := shutdown_wait_count c;
  client_bootstrap := client_bootstrap c;
  credentials_provider := credentials_provider c;
  region := region c; endpoint := endpoint c;
  connection_manager := connection_manager c;
  shutdown_callback := shutdown_callback c;
  shutdown_callback_user_data := shutdown_callback_user_data c
|}.

Definition set_shutdown_wait_count (v : Z) (c : aws_s3_client) : aws_s3_client := {|
  allocator := allocator c; ref_count := ref_count c;
  shutdown_wait_count := v;
  client_bootstrap := client_bootstrap c;
  credentials_provider := credentials_provider c;
  region := region c; endpoint := endpoint c;
  connection_manager := connection_manager c;
  shutdown_callback := shutdown_callback c;
  shutdown_callback_user_data := shutdown_callback_user_data c
|}.

Definition set_client_bootstrap (v : option Z) (c : aws_s3_client) : aws_s3_client := {|
  allocator := allocator c; ref_count := ref_count c;
  shutdown_wait_count := shutdown_wait_count c;
  client_bootstrap := v;
  credentials_provider := credentials_provider c;
  region := region c; endpoint := endpoint c;
  connection_manager := connection_manager c;
  shutdown_callback := shutdown_callback c;
  shutdown_callback_user_data := shutdown_callback_user_data c
|}.

Definition set_credentials_provider (v : option Z) (c : aws_s3_client) : aws_s3_client := {|
  allocator := allocator c; ref_count := ref_count c;
  shutdown_wait_count := shutdown_wait_count c;
  client_bootstrap := client_bootstrap c;
  credentials_provider := v;
  region := region c; endpoint := endpoint c;
  connection_manager := connection_manager c;
  shutdown_callback := shutdown_callback c;
  shutdown_callback_user_data := shutdown_callback_user_data c
|}.

Definition set_region (v : option string) (c : aws_s3_client) : aws_s3_client := {|
  allocator := allocator c; ref_count := ref_count c;
  shutdown_wait_count := shutdown_wait_count c;
  client_bootstrap := client_bootstrap c;
  credentials_provider := credentials_provider c;
  region := v; endpoint := endpoint c;
  connection_manager := connection_manager c;
  shutdown_callback := shutdown_callback c;
  shutdown_callback_user_data := shutdown_callback_user_data c
|}.

Definition set_endpoint (v : option string) (c : aws_s3_client) : aws_s3_client := {|
  allocator := allocator c; ref_count := ref_count c;
  shutdown_wait_count := shutdown_wait_count c;
  client_bootstrap := client_bootstrap c;
  credentials_provider := credentials_provider c;
  region := region c; endpoint := v;
  connection_manager := connection_manager c;
  shutdown_callback := shutdown_callback c;
  shutdown_callback_user_data := shutdown_callback_user_data c
|}.

Definition set_connection_manager
  (v : option aws_http_connection_manager_options) (c : aws_s3_client) : aws_s3_client := {|
  allocator := allocator c; ref_count := ref_count c;
  shutdown_wait_count := shutdown_wait_count c;
  client_bootstrap := client_bootstrap c;
  credentials_provider := credentials_provider c;
  region := region c; endpoint := endpoint c;
  connection_manager := v;
  shutdown_callback := shutdown_callback c;
  shutdown_callback_user_data := shutdown_callback_user_data c
|}.

Definition set_shutdown_callback (v : option Z) (c : aws_s3_client) : aws_s3_client := {|
  allocator := allocator c; ref_count := ref_count c;
  shutdown_wait_count := shutdown_wait_count c;
  client_bootstrap := client_bootstrap c;
  credentials_provider := credentials_provider c;
  region := region c; endpoint := endpoint c;
  connection_manager := connection_manager c;
  shutdown_callback := v;
  shutdown_callback_user_data := shutdown_callback_user_data c
|}.

Definition set_shutdown_callback_user_data (v : Z) (c : aws_s3_client) : aws_s3_client := {|
  allocator := allocator c; ref_count := ref_count c;
  shutdown_wait_count := shutdown_wait_count c;
  client_bootstrap := client_bootstrap c;
  credentials_provider := credentials_provider c;
  region := region c; endpoint := endpoint c;
  connection_manager := connection_manager c;
  shutdown_callback := shutdown_callback c;
  shutdown_callback_user_data := v
|}.

(** *** The state the functions run in *)

(** The client's block. *)
Inductive memory :=
| Unallocated
| Live (c : aws_s3_client)
| Freed.

(** The connection manager, seen from outside: it exists once
    [aws_http_connection_manager_new] has returned it, starts to shut down
    when its owner releases it, and reports the end of its shutdown once,
    through the callback it was given. *)
Inductive pool_state :=
| NoPool
| PoolLive (options : aws_http_connection_manager_options)
| PoolShuttingDown (options : aws_http_connection_manager_options)
| PoolShutDown.

(** Calls that acquire or give back a resource, raise an error or call back
    into the user, in the order they happen.  An allocation that fails
    acquires nothing and is not recorded.  [mem_release] carries the contents
    of the block at the moment it is released. *)
Inductive event :=
| raise_error (code : Z)
| mem_calloc
| mem_release (block : aws_s3_client)
| provider_acquire (provider : Z)
| provider_release (provider : Z)
| string_new (s : string)
| string_destroy (s : string)
| manager_new (options : aws_http_connection_manager_options)
| manager_release (options : aws_http_connection_manager_options)
| shutdown_callback_call (fn : option Z) (user_data : Z).

Record world := {
  mem : memory;
  pool : pool_state;
  last_error : Z;
  trace : list event
}.

Definition initial_world : world :=
  {| mem := Unallocated; pool := NoPool; last_error := 0; trace := [] |}.

Inductive fault := UseAfterFree | NullFunctionCall | NullDereference.

Inductive outcome (A : Type) :=
| Ok (a : A) (w : world)
| Fault (f : fault) (w : world).
Arguments Ok {A} a w.
Arguments Fault {A} f w.

Definition world_of {A} (o : outcome A) : world :=
  match o with Ok _ w => w | Fault _ w => w end.

Definition M (A : Type) : Type := world -> outcome A.

Definition ret {A} (a : A) : M A := fun w => Ok a w.

Definition bind {A B} (m : M A) (k : A -> M B) : M B :=
  fun w => match m w with
           | Ok a w' => k a w'
           | Fault f w' => Fault f w'
           end.

Notation "x <- m ;; k" := (bind m (fun x => k))
  (at level 61, m at next level, right associativity).
Notation "m ;; k" := (bind m (fun _ => k))
  (at level 61, right associativity).

Definition emit (e : event) : M unit := fun w =>
  Ok tt {| mem := mem w; pool := pool w; last_error := last_error w;
           trace := trace w ++ [e] |}.

Definition set_mem (m : memory) : M unit := fun w =>
  Ok tt {| mem := m; pool := pool w; last_error := last_error w; trace := trace w |}.

Definition set_pool (p : pool_state) : M unit := fun w =>
  Ok tt {| mem := mem w; pool := p; last_error := last_error w; trace := trace w |}.

(** [client->field]: a read of the block, which must be live. *)
Definition load {A} (field : aws_s3_client -> A) : M A := fun w =>
  match mem w with
  | Live c => Ok (field c) w
  | _ => Fault UseAfterFree w
  end.

(** [client->field = v]. *)
Definition store (update : aws_s3_client -> aws_s3_client) : M unit := fun w =>
  match mem w with
  | Live c => set_mem (Live (update c)) w
  | _ => Fault UseAfterFree w
  end.

(** *** Collaborators *)

Definition aws_raise_error (code : Z) : M unit := fun w =>
  Ok tt {| mem := mem w; pool := pool w; last_error := code;
           trace := trace w ++ [raise_error code] |}.

(** Which of the allocations of [aws_s3_client_new] succeed. *)
Record allocation_plan := {
  calloc_ok : bool;
  region_ok : bool;
  endpoint_ok : bool;
  manager_ok : bool
}.

Definition aws_mem_calloc (ok : bool) : M pointer :=
  if ok then set_mem (Live zeroed) ;; emit mem_calloc ;; ret CLIENT
  else ret NULL.

(** [aws_mem_release(client->allocator, client)]. *)
Definition aws_mem_release : M unit :=
  block <- load (fun c => c) ;;
  set_mem Freed ;;
  emit (mem_release block).

Definition aws_credentials_provider_acquire (p : Z) : M unit :=
  emit (provider_acquire p).

Definition aws_credentials_provider_release (p : Z) : M unit :=
  emit (provider_release p).

Definition aws_string_new_from_array (ok : bool) (s : string) : M (option string) :=
  if ok then emit (string_new s) ;; ret (Some s) else ret None.

Definition aws_string_destroy (s : string) : M unit :=
  emit (string_destroy s).

Definition aws_http_connection_manager_new
  (ok : bool) (options : aws_http_connection_manager_options)
  : M (option aws_http_connection_manager_options) :=
  if ok then set_pool (PoolLive options) ;; emit (manager_new options) ;; ret (Some options)
  else ret None.

(** The client is the manager's only owner: its release starts the
    manager's shutdown. *)
Definition aws_http_connection_manager_release
  (m : aws_http_connection_manager_options) : M unit :=
  set_pool (PoolShuttingDown m) ;; emit (manager_release m).

(** [aws_atomic_init_int], [aws_atomic_fetch_add], [aws_atomic_fetch_sub] on
    a counter of the block; the fetch operations return the old value. *)
Definition aws_atomic_init_int
  (set : Z -> aws_s3_client -> aws_s3_client) (v : Z) : M unit :=
  store (set v).

Definition aws_atomic_fetch_add
  (get : aws_s3_client -> Z) (set : Z -> aws_s3_client -> aws_s3_client) (n : Z) : M Z :=
  old <- load get ;;
  store (set (size_t (old + n))) ;;
  ret old.

Definition aws_atomic_fetch_sub
  (get : aws_s3_client -> Z) (set : Z -> aws_s3_client -> aws_s3_client) (n : Z) : M Z :=
  old <- load get ;;
  store (set (size_t (old - n))) ;;
  ret old.

(** [shutdown_callback(shutdown_user_data)]: a call through a function
    pointer, with no test of the pointer. *)
Definition call_shutdown_callback (fn : option Z) (user_data : Z) : M unit :=
  emit (shutdown_callback_call fn user_data) ;;
  match fn with
  | Some _ => ret tt
  | None => fun w => Fault NullFunctionCall w
  end.

(** *** The functions of the file *)

Definition aws_s3_client_acquire : M unit :=
  _ <- aws_atomic_fetch_add ref_count set_ref_count 1 ;;
  ret tt.

Definition aws_s3_client_release : M unit :=
  old <- aws_atomic_fetch_sub ref_count set_ref_count 1 ;;
  let new_ref_count := size_t (old - 1) in
  if 0 <? new_ref_count then ret tt
  else
    provider <- load credentials_provider ;;
    match provider with
    | Some p =>
        aws_credentials_provider_release p ;;
        store (set_credentials_provider None)
    | None => ret tt
    end ;;
    manager <- load connection_manager ;;
    match manager with
    | Some m =>
        aws_http_connection_manager_release m ;;
        store (set_connection_manager None)
    | None => ret tt
    end ;;
    r <- load region ;;
    match r with
    | Some s => aws_string_destroy s ;; store (set_region None)
    | None => ret tt
    end ;;
    e <- load endpoint ;;
    match e with
    | Some s => aws_string_destroy s ;; store (set_endpoint None)
    | None => ret tt
    end.

Definition s_s3_client_dec_shutdown_wait_count : M unit :=
  old <- aws_atomic_fetch_sub shutdown_wait_count set_shutdown_wait_count 1 ;;
  let new_count := size_t (old - 1) in
  if 0 <? new_count then ret tt
  else
    shutdown_callback' <- load shutdown_callback ;;
    shutdown_user_data <- load shutdown_callback_user_data ;;
    aws_mem_release ;;
    call_shutdown_callback shutdown_callback' shutdown_user_data.

Definition s_s3_client_connection_manager_shutdown_callback (user_data : pointer)
  : M unit :=
  match user_data with
  | CLIENT => s_s3_client_dec_shutdown_wait_count
  | NULL => fun w => Fault NullDereference w
  end.

(** The label [error_clean_up] of [aws_s3_client_new]; [client] is never
    [NULL] where it is reached. *)
Definition error_clean_up : M pointer :=
  aws_s3_client_release ;;
  ret NULL.

Definition connection_manager_setup (client_bootstrap' : option Z) (endpoint' : string)
  : aws_http_connection_manager_options :=
  let port' := 80 in
  let max_connections' := 10 in
  let timeout_seconds := 3 in
  {| bootstrap := client_bootstrap';
     initial_window_size := SIZE_MAX;
     socket_options :=
       {| socket_type := AWS_SOCKET_STREAM;
          socket_domain := AWS_SOCKET_IPV4;
          connect_timeout_ms :=
            uint32_t (aws_timestamp_convert_secs_to_millis timeout_seconds) |};
     tls_connection_options := None;
     proxy_options := None;
     host := endpoint';
     port := port';
     max_connections := max_connections';
     shutdown_complete_callback :=
       Some s_s3_client_connection_manager_shutdown_callback_fn;
     shutdown_complete_user_data := CLIENT |}.

Definition aws_s3_client_new
  (allocator' : Z) (client_config : aws_s3_client_config) (plan : allocation_plan)
  : M pointer :=
  match config_client_bootstrap client_config with
  | None => aws_raise_error AWS_ERROR_INVALID_ARGUMENT ;; ret NULL
  | Some _ =>
  match config_credentials_provider client_config with
  | None => aws_raise_error AWS_ERROR_INVALID_ARGUMENT ;; ret NULL
  | Some provider =>
    client <- aws_mem_calloc (calloc_ok plan) ;;
    match client with
    | NULL => ret NULL
    | CLIENT =>
      store (set_allocator allocator') ;;
      aws_atomic_init_int set_ref_count 1 ;;
      store (set_client_bootstrap (config_client_bootstrap client_config)) ;;
      store (set_credentials_provider (config_credentials_provider client_config)) ;;
      aws_credentials_provider_acquire provider ;;
      store (set_shutdown_callback (config_shutdown_callback client_config)) ;;
      store (set_shutdown_callback_user_data
               (config_shutdown_callback_user_data client_config)) ;;
      aws_atomic_init_int set_shutdown_wait_count 0 ;;
      region' <- aws_string_new_from_array (region_ok plan) (config_region client_config) ;;
      store (set_region region') ;;
      match region' with
      | None => error_clean_up
      | Some _ =>
        endpoint' <- aws_string_new_from_array (endpoint_ok plan)
                       (config_endpoint client_config) ;;
        store (set_endpoint endpoint') ;;
        match endpoint' with
        | None => error_clean_up
        | Some host' =>
          bootstrap' <- load client_bootstrap ;;
          manager <- aws_http_connection_manager_new (manager_ok plan)
                       (connection_manager_setup bootstrap' host') ;;
          store (set_connection_manager manager) ;;
          match manager with
          | None => error_clean_up
          | Some _ =>
            _ <- aws_atomic_fetch_add shutdown_wait_count set_shutdown_wait_count 1 ;;
            ret CLIENT
          end
        end
      end
    end
  end
  end.

(** *** The life of a client after construction

    The functions are interleaved as wholes: each of them touches the shared
    block first through one atomic operation on a counter, and only the call
    that brings the counter to zero goes on to touch anything else.

    Callers hold references and call [aws_s3_client_acquire] and
    [aws_s3_client_release] on them; a caller can only do so with a reference
    it holds, so with a block that is live and a positive count.  The
    connection manager reports the end of its shutdown through the callback
    registered in [aws_s3_client_new], once, and only after it was released. *)
Inductive action := Acquire | Release | PoolShutdownComplete.

Definition enabled (a : action) (w : world) : bool :=
  match a with
  | Acquire | Release =>
      match mem w with
      | Live c => 0 <? ref_count c
      | _ => false
      end
  | PoolShutdownComplete =>
      match pool w with
      | PoolShuttingDown _ => true
      | _ => false
      end
  end.

(** The manager calls [shutdown_complete_callback(shutdown_complete_user_data)]
    if its options have one. *)
Definition shutdown_complete (options : aws_http_connection_manager_options) : M unit :=
  set_pool PoolShutDown ;;
  match shutdown_complete_callback options with
  | Some s_s3_client_connection_manager_shutdown_callback_fn =>
      s_s3_client_connection_manager_shutdown_callback
        (shutdown_complete_user_data options)
  | None => ret tt
  end.

Definition fire (a : action) : M unit :=
  match a with
  | Acquire => aws_s3_client_acquire
  | Release => aws_s3_client_release
  | PoolShutdownComplete => fun w =>
      match pool w with
      | PoolShuttingDown options => shutdown_complete options w
      | _ => Ok tt w
      end
  end.

(** A schedule runs while its actions are enabled; nothing runs after a
    fault. *)
Fixpoint run (schedule : list action) (w : world) : option (outcome unit) :=
  match schedule with
  | [] => Some (Ok tt w)
  | a :: rest =>
      if enabled a w then
        match fire a w, rest with
        | Ok _ w', _ => run rest w'
        | Fault f w', [] => Some (Fault f w')
        | Fault _ _, _ :: _ => None
        end
      else None
  end.

Definition is_mem_release (e : event) : bool :=
  match e with mem_release _ => true | _ => false end.

Definition mem_releases (w : world) : list event :=
  filter is_mem_release (trace w).

(** The manager was told to call the client's shutdown callback on the
    client. *)
Definition calls_back (m : aws_http_connection_manager_options) : Prop :=
  shutdown_complete_callback m = Some s_s3_client_connection_manager_shutdown_callback_fn
  /\ shutdown_complete_user_data m = CLIENT.

(** *** The invariant of the life cycle

    The states a client goes through.  [abandoned] is the state a failed
    construction leaves behind; [in_use] lasts while callers hold
    references; the last release turns it into [shutting_down], and the
    connection manager's shutdown callback into [released]. *)
Inductive lifecycle_invariant (w : world) : Prop :=
| no_client :
    mem w = Unallocated -> pool w = NoPool -> mem_releases w = [] ->
    lifecycle_invariant w
| abandoned c :
    mem w = Live c -> pool w = NoPool -> ref_count c = 0 -> mem_releases w = [] ->
    lifecycle_invariant w
| in_use c m :
    mem w = Live c -> pool w = PoolLive m -> connection_manager c = Some m ->
    calls_back m ->
    shutdown_wait_count c = 1 -> mem_releases w = [] ->
    lifecycle_invariant w
| shutting_down c m :
    mem w = Live c -> pool w = PoolShuttingDown m -> calls_back m ->
    ref_count c = 0 ->
    shutdown_wait_count c = 1 -> mem_releases w = [] ->
    lifecycle_invariant w
| released block :
    mem w = Freed -> pool w = PoolShutDown ->
    mem_releases w = [mem_release block] ->
    ref_count block = 0 -> shutdown_wait_count block = 0 ->
    lifecycle_invariant w.

(** *** Inputs used in the examples below *)

Definition example_config : aws_s3_client_config := {|
  config_client_bootstrap := Some 1;
  config_credentials_provider := Some 2;
  config_region := "us-east-1";
  config_endpoint := "bucket.s3.amazonaws.com";
  config_shutdown_callback := Some 7;
  config_shutdown_callback_user_data := 9
|}.

Definition all_succeed : allocation_plan :=
  {| calloc_ok := true; region_ok := true; endpoint_ok := true; manager_ok := true |}.

Definition config_without_provider : aws_s3_client_config := {|
  config_client_bootstrap := Some 1;
  config_credentials_provider := None;
  config_region := "us-east-1";
  config_endpoint := "bucket.s3.amazonaws.com";
  config_shutdown_callback := Some 7;
  config_shutdown_callback_user_data := 9
|}.

Definition region_fails : allocation_plan :=
  {| calloc_ok := true; region_ok := false; endpoint_ok := true; manager_ok := true |}.

(** The client [aws_s3_client_new] returns for [example_config]. *)
Definition example_client : aws_s3_client :=
  match mem (world_of (aws_s3_client_new 5 example_config all_succeed initial_world)) with
  | Live c => c
  | _ => zeroed
  end.

(** A schedule: a second holder takes a reference, both release theirs, and
    the connection manager reports the end of its shutdown. *)
Definition example_schedule : list action :=
  [Acquire; Release; Release; PoolShutdownComplete].

Definition example_outcome : outcome unit :=
  match run example_schedule
          (world_of (aws_s3_client_new 5 example_config all_succeed initial_world)) with
  | Some o => o
  | None => Ok tt initial_world
  end.

(** *** The ledger of what a client holds

    What the trace says is still held of each kind of resource: acquired and
    not yet given back. *)
Inductive resource :=
| ClientBlock
| ProviderReference
| OwnedString
| ConnectionManagerHandle.

Definition delta (r : resource) (e : event) : Z :=
  match r, e with
  | ClientBlock, mem_calloc => 1
  | ClientBlock, mem_release _ => -1
  | ProviderReference, provider_acquire _ => 1
  | ProviderReference, provider_release _ => -1
  | OwnedString, string_new _ => 1
  | OwnedString, string_destroy _ => -1
  | ConnectionManagerHandle, manager_new _ => 1
  | ConnectionManagerHandle, manager_release _ => -1
  | _, _ => 0
  end.

Definition outstanding (r : resource) (t : list event) : Z :=
  fold_right (fun e acc => delta r e + acc) 0 t.

Definition is_callback_call (e : event) : bool :=
  match e with shutdown_callback_call _ _ => true | _ => false end.

Definition callback_calls (t : list event) : list event :=
  filter is_callback_call t.

(** The state [w] with the reference count of its block [c] set to [v]. *)
Definition with_ref_count (v : Z) (c : aws_s3_client) (w : world) : world :=
  {| mem := Live (set_ref_count v c); pool := pool w;
     last_error := last_error w; trace := trace w |}.

Definition with_shutdown_wait_count (v : Z) (c : aws_s3_client) (w : world) : world :=
  {| mem := Live (set_shutdown_wait_count v c); pool := pool w;
     last_error := last_error w; trace := trace w |}.

(** What a client that is in use holds: its block, one reference on the
    provider, the two strings and the connection manager. *)
Definition held_in_use (r : resource) : Z :=
  match r with OwnedString => 2 | _ => 1 end.

(** What is left once the last reference is gone, or after a failed
    construction: the block. *)
Definition held_block_only (r : resource) : Z :=
  match r with ClientBlock => 1 | _ => 0 end.

(** The life cycle again, with the ledger and the user's shutdown callback:
    the callback and its user data are the configuration's, and the
    callback is not called before the block is released. *)
Inductive audited (cfg : aws_s3_client_config) (w : world) : Prop :=
| audited_no_client :
    mem w = Unallocated -> pool w = NoPool ->
    (forall r, outstanding r (trace w) = 0) ->
    callback_calls (trace w) = [] ->
    audited cfg w
| audited_abandoned c :
    mem w = Live c -> pool w = NoPool -> ref_count c = 0 ->
    (forall r, outstanding r (trace w) = held_block_only r) ->
    callback_calls (trace w) = [] ->
    audited cfg w
| audited_in_use c m :
    mem w = Live c -> pool w = PoolLive m -> calls_back m ->
    connection_manager c = Some m ->
    credentials_provider c <> None -> region c <> None -> endpoint c <> None ->
    shutdown_callback c = config_shutdown_callback cfg ->
    shutdown_callback_user_data c = config_shutdown_callback_user_data cfg ->
    shutdown_wait_count c = 1 ->
    (forall r, outstanding r (trace w) = held_in_use r) ->
    callback_calls (trace w) = [] ->
    audited cfg w
| audited_shutting_down c m :
    mem w = Live c -> pool w = PoolShuttingDown m -> calls_back m ->
    ref_count c = 0 -> shutdown_wait_count c = 1 ->
    shutdown_callback c = config_shutdown_callback cfg ->
    shutdown_callback_user_data c = config_shutdown_callback_user_data cfg ->
    (forall r, outstanding r (trace w) = held_block_only r) ->
    callback_calls (trace w) = [] ->
    audited cfg w
| audited_released before :
    mem w = Freed -> pool w = PoolShutDown ->
    (forall r, outstanding r (trace w) = 0) ->
    trace w = before ++ [shutdown_callback_call (config_shutdown_callback cfg)
                           (config_shutdown_callback_user_data cfg)] ->
    callback_calls before = [] ->
    audited cfg w.

(** How a run may end, given the configuration: a fault is the call of a
    [NULL] shutdown callback, after the block was released; a run that ends
    without one and has released the block had a callback to call. *)
Definition ends_well (cfg : aws_s3_client_config) (o : outcome unit) : Prop :=
  match o with
  | Ok _ w => mem w = Freed -> config_shutdown_callback cfg <> None
  | Fault f w =>
      f = NullFunctionCall /\ config_shutdown_callback cfg = None /\ mem w = Freed
  end.

(** A configuration without a shutdown callback. *)
Definition config_without_callback : aws_s3_client_config := {|
  config_client_bootstrap := Some 1;
  config_credentials_provider := Some 2;
  config_region := "us-east-1";
  config_endpoint := "bucket.s3.amazonaws.com";
  config_shutdown_callback := None;
  config_shutdown_callback_user_data := 9
|}.

Definition teardown : list action := [Release; PoolShutdownComplete].

Definition outcome_after (cfg : aws_s3_client_config) (schedule : list action)
  : outcome unit :=
  match run schedule
          (world_of (aws_s3_client_new 5 cfg all_succeed initial_world)) with
  | Some o => o
  | None => Ok tt initial_world
  end.

(** *** [aws_s3_client_release], statement by statement

    The call of [aws_http_connection_manager_release] (line 181) is where
    the connection manager may start its shutdown, and from then on its
    shutdown callback may run at any time, also before
    [aws_s3_client_release] has returned.  Up to that call nothing else can
    touch the client (its count is 0 and no manager is shutting down), so
    the function is followed as one step up to line 181 and statement by
    statement from line 182 on. *)
Inductive release_progress := Returned | AfterManagerRelease.

(** Lines 169 to 181; with no connection manager the function runs to its
    end. *)
Definition release_to_manager_release : M release_progress :=
  old <- aws_atomic_fetch_sub ref_count set_ref_count 1 ;;
  let new_ref_count := size_t (old - 1) in
  if 0 <? new_ref_count then ret Returned
  else
    provider <- load credentials_provider ;;
    match provider with
    | Some p =>
        aws_credentials_provider_release p ;;
        store (set_credentials_provider None)
    | None => ret tt
    end ;;
    manager <- load connection_manager ;;
    match manager with
    | Some m =>
        aws_http_connection_manager_release m ;;
        ret AfterManagerRelease
    | None =>
        r <- load region ;;
        match r with
        | Some s => aws_string_destroy s ;; store (set_region None)
        | None => ret tt
        end ;;
        e <- load endpoint ;;
        match e with
        | Some s => aws_string_destroy s ;; store (set_endpoint None)
        | None => ret tt
        end ;;
        ret Returned
    end.

(** The statements from line 182 on, by the line they start at; each reads
    or writes the block once. *)
Inductive release_point := L182 | L185 | L186 | L187 | L190 | L191 | L192.

Definition resume (p : release_point) : M (option release_point) :=
  match p with
  | L182 => store (set_connection_manager None) ;; ret (Some L185)
  | L185 =>
      r <- load region ;;
      ret (match r with Some _ => Some L186 | None => Some L190 end)
  | L186 =>
      r <- load region ;;
      match r with Some s => aws_string_destroy s | None => ret tt end ;;
      ret (Some L187)
  | L187 => store (set_region None) ;; ret (Some L190)
  | L190 =>
      e <- load endpoint ;;
      ret (match e with Some _ => Some L191 | None => None end)
  | L191 =>
      e <- load endpoint ;;
      match e with Some s => aws_string_destroy s | None => ret tt end ;;
      ret (Some L192)
  | L192 => store (set_endpoint None) ;; ret None
  end.

(** The statements from [p] on, with nothing in between. *)
Fixpoint resume_to_end (fuel : nat) (p : option release_point) : M unit :=
  match p, fuel with
  | None, _ => ret tt
  | Some _, O => ret tt
  | Some q, S k => next <- resume q ;; resume_to_end k next
  end.

Definition release_statement_by_statement : M unit :=
  progress <- release_to_manager_release ;;
  match progress with
  | Returned => ret tt
  | AfterManagerRelease => resume_to_end 7 (Some L182)
  end.

(** The life of a client with a release that can be overtaken: where the
    releasing caller stands, if it is past line 181, is part of the state. *)
Inductive fine_action := Acquires | ReleaseStarts | ReleaseResumes | ManagerShutsDown.

Record fine_world := {
  shared : world;
  suspended : option release_point
}.

Definition fine_enabled (a : fine_action) (fw : fine_world) : bool :=
  match a with
  | Acquires => enabled Acquire (shared fw)
  | ReleaseStarts => enabled Release (shared fw)
  | ReleaseResumes =>
      match suspended fw with Some _ => true | None => false end
  | ManagerShutsDown => enabled PoolShutdownComplete (shared fw)
  end.

Definition fine_fire (a : fine_action) (fw : fine_world)
  : outcome unit * option release_point :=
  match a with
  | Acquires => (fire Acquire (shared fw), suspended fw)
  | ReleaseStarts =>
      match release_to_manager_release (shared fw) with
      | Ok Returned w => (Ok tt w, suspended fw)
      | Ok AfterManagerRelease w => (Ok tt w, Some L182)
      | Fault f w => (Fault f w, suspended fw)
      end
  | ReleaseResumes =>
      match suspended fw with
      | Some p =>
          match resume p (shared fw) with
          | Ok next w => (Ok tt w, next)
          | Fault f w => (Fault f w, Some p)
          end
      | None => (Ok tt (shared fw), None)
      end
  | ManagerShutsDown => (fire PoolShutdownComplete (shared fw), suspended fw)
  end.

Fixpoint fine_run (schedule : list fine_action) (fw : fine_world)
  : option (outcome unit * option release_point) :=
  match schedule with
  | [] => Some (Ok tt (shared fw), suspended fw)
  | a :: rest =>
      if fine_enabled a fw then
        match fine_fire a fw, rest with
        | (Ok _ w, s), _ => fine_run rest {| shared := w; suspended := s |}
        | (Fault f w, s), [] => Some (Fault f w, s)
        | (Fault _ _, _), _ :: _ => None
        end
      else None
  end.

Definition fine_start (w : world) : fine_world :=
  {| shared := w; suspended := None |}.

(** What a release suspended at [p] has still to give back, and what it
    still finds in the block. *)
Definition held_at (p : release_point) (r : resource) : Z :=
  match r with
  | ClientBlock => 1
  | OwnedString =>
      match p with
      | L182 | L185 | L186 => 2
      | L187 | L190 | L191 => 1
      | L192 => 0
      end
  | _ => 0
  end.

Definition fields_at (p : release_point) (c : aws_s3_client) : Prop :=
  match p with
  | L182 | L185 | L186 => region c <> None /\ endpoint c <> None
  | L187 | L190 | L191 => endpoint c <> None
  | L192 => True
  end.

(** The states of that life: no release is suspended and the state is one of
    [audited]; or a release is suspended and the block is live; or the
    manager's shutdown callback has overtaken a suspended release. *)
Inductive fine_audited (cfg : aws_s3_client_config)
  (w : world) (s : option release_point) : Prop :=
| fine_settled :
    s = None -> audited cfg w -> fine_audited cfg w s
| fine_suspended p c m :
    s = Some p ->
    mem w = Live c -> pool w = PoolShuttingDown m -> calls_back m ->
    ref_count c = 0 -> shutdown_wait_count c = 1 ->
    shutdown_callback c = config_shutdown_callback cfg ->
    shutdown_callback_user_data c = config_shutdown_callback_user_data cfg ->
    fields_at p c ->
    (forall r, outstanding r (trace w) = held_at p r) ->
    callback_calls (trace w) = [] ->
    fine_audited cfg w s
| fine_overtaken p :
    s = Some p ->
    mem w = Freed -> pool w = PoolShutDown ->
    callback_calls (trace w) <> [] ->
    fine_audited cfg w s.

(** How a run of that life may end: without a fault; by the call of a
    [NULL] shutdown callback; or by a suspended release going on in a block
    that the shutdown callback has released in the meantime. *)
Definition fine_ends (cfg : aws_s3_client_config)
  (o : outcome unit) (s : option release_point) : Prop :=
  match o with
  | Ok _ _ => True
  | Fault f w =>
      (f = NullFunctionCall /\ config_shutdown_callback cfg = None /\ mem w = Freed)
      \/ (f = UseAfterFree /\ s <> None /\ mem w = Freed
          /\ callback_calls (trace w) <> [])
  end.

(** The shutdown callback overtakes the release, which then goes on. *)
Definition overtaken_release : list fine_action :=
  [ReleaseStarts; ManagerShutsDown; ReleaseResumes].

(** The same steps in the order the sequential life cycle has them. *)
Definition orderly_release : list fine_action :=
  [Acquires; ReleaseStarts; ReleaseStarts;
   ReleaseResumes; ReleaseResumes; ReleaseResumes; ReleaseResumes;
   ReleaseResumes; ReleaseResumes; ReleaseResumes; ManagerShutsDown].

Definition fine_outcome_after (cfg : aws_s3_client_config) (schedule : list fine_action)
  : outcome unit * option release_point :=
  match fine_run schedule
          (fine_start (world_of (aws_s3_client_new 5 cfg all_succeed initial_world))) with
  | Some r => r
  | None => (Ok tt initial_world, None)
  end.

End Client.

Module Pipeline.

(** *** Data *)

Inductive aws_http_header_block :=
| AWS_HTTP_HEADER_BLOCK_MAIN
| AWS_HTTP_HEADER_BLOCK_INFORMATIONAL
| AWS_HTTP_HEADER_BLOCK_TRAILING.

Record aws_http_header := { name : string; value : string }.

Definition aws_byte_cursor := list Byte.byte.

(** The outgoing message, as far as signing changes it: its headers. *)
Definition aws_http_message := list aws_http_header.

(** What the signer hands to its completion callback: the headers to add. *)
Definition aws_signing_result := list aws_http_header.

Inductive aws_signing_config_type := AWS_SIGNING_CONFIG_AWS.
Inductive aws_signing_algorithm := AWS_SIGNING_ALGORITHM_V4.
Inductive aws_signed_body_header_type := AWS_SBHT_NONE | AWS_SBHT_X_AMZ_CONTENT_SHA256.

Definition g_aws_signed_body_value_unsigned_payload : string := "UNSIGNED-PAYLOAD".

(** [region] is the cursor over [client->region]; [client->region] is not
    [NULL] in a client that [aws_s3_client_new] returned. *)
Record aws_signing_config_aws := {
  config_type : aws_signing_config_type;
  algorithm : aws_signing_algorithm;
  credentials_provider : option Z;
  region : option string;
  service : string;
  date : Z;
  signed_body_value : string;
  signed_body_header : aws_signed_body_header_type
}.

(** [struct aws_s3_request]: the fields this file reads and writes, and the
    rest of the Request object ([impl]), which only its own handlers know.
    [client] is the non-owning back reference; the pipeline reads fields of
    the client that are set once at construction. *)
Record aws_s3_request (R : Type) := {
  client : Client.aws_s3_client;
  message : aws_http_message;
  signable : option Z;
  stream : option Z;
  impl : R
}.
Arguments client {R} _.
Arguments message {R} _.
Arguments signable {R} _.
Arguments stream {R} _.
Arguments impl {R} _.

(** The Request object's five handlers (s3_request.c, not part of this
    file): each receives the request and may change it; the three data
    handlers return a status.  A handler is given the request and nothing
    else: what it can dispose of is what the request holds. *)
Class RequestObject (R : Type) := {
  aws_s3_request_incoming_headers :
    aws_s3_request R -> aws_http_header_block -> list aws_http_header -> Z ->
    Z * aws_s3_request R;
  aws_s3_request_incoming_header_block_done :
    aws_s3_request R -> aws_http_header_block -> Z * aws_s3_request R;
  aws_s3_request_incoming_body :
    aws_s3_request R -> aws_byte_cursor -> Z * aws_s3_request R;
  aws_s3_request_stream_complete : aws_s3_request R -> Z -> aws_s3_request R;
  aws_s3_request_finish : aws_s3_request R -> Z -> aws_s3_request R
}.

(** The result of a call into a collaborator that can fail: on failure the
    collaborator has raised [error], which [aws_last_error] then returns. *)
Inductive ext_result (A : Type) :=
| Succeeds (a : A)
| Fails (error : Z).
Arguments Succeeds {A} a.
Arguments Fails {A} error.

(** The functions of this file that are handed to collaborators as
    callbacks, with the request as user data. *)
Inductive client_callback :=
| s_s3_client_signing_complete_fn
| s_s3_client_on_acquire_connection_fn
| s_s3_client_incoming_headers_fn
| s_s3_client_incoming_header_block_done_fn
| s_s3_client_incoming_body_fn
| s_s3_client_stream_complete_fn.

(** [struct aws_http_make_request_options]: the message and the four
    callback slots; a slot of the zeroed struct is [NULL]. *)
Record aws_http_make_request_options := {
  options_request : aws_http_message;
  on_response_headers : option client_callback;
  on_response_header_block_done : option client_callback;
  on_response_body : option client_callback;
  on_complete : option client_callback
}.

(** Who holds a callback of the request, and which.  [aws_sign_request_aws]
    keeps the completion it is given when it returns success;
    [aws_http_connection_manager_acquire_connection] keeps the callback it
    is given; a stream that was activated holds the options it was made
    with.  Each collaborator gives its callback up when it calls the
    completion. *)
Inductive callback_holder :=
| Nobody
| Signer (on_complete' : client_callback)
| ConnectionManager (callback : client_callback)
| HttpStream (options : aws_http_make_request_options).

(** The calls the pipeline makes, in order. *)
Inductive call :=
| signable_new_http_request
| sign_request_aws (signable' : Z) (config : aws_signing_config_aws)
    (on_complete' : client_callback)
| apply_signing_result_to_http_request (result : aws_signing_result)
| connection_manager_acquire_connection
    (manager : option Client.aws_http_connection_manager_options)
    (callback : client_callback)
| http_connection_make_request (connection : option Z)
    (options : aws_http_make_request_options)
| http_stream_activate (stream' : Z)
| request_incoming_headers
    (block : aws_http_header_block) (headers : list aws_http_header) (num_headers : Z)
| request_incoming_header_block_done (block : aws_http_header_block)
| request_incoming_body (data : aws_byte_cursor)
| request_stream_complete (error_code : Z)
| request_finish (error_code : Z).

(** [checked_out]: the connections the manager has handed to the acquire
    callback and that were not given back to it. *)
Record world (R : Type) := {
  request : aws_s3_request R;
  holder : callback_holder;
  checked_out : list Z;
  last_error : Z;
  calls : list call
}.
Arguments request {R} _.
Arguments holder {R} _.
Arguments checked_out {R} _.
Arguments last_error {R} _.
Arguments calls {R} _.

Section WithRequestObject.
Context {R : Type} `{RequestObject R}.

Definition fresh (rq : aws_s3_request R) : world R :=
  {| request := rq; holder := Nobody; checked_out := []; last_error := 0; calls := [] |}.

Definition set_request (rq : aws_s3_request R) (w : world R) : world R :=
  {| request := rq; holder := holder w; checked_out := checked_out w;
     last_error := last_error w; calls := calls w |}.

Definition set_holder (h : callback_holder) (w : world R) : world R :=
  {| request := request w; holder := h; checked_out := checked_out w;
     last_error := last_error w; calls := calls w |}.

Definition set_checked_out (l : list Z) (w : world R) : world R :=
  {| request := request w; holder := holder w; checked_out := l;
     last_error := last_error w; calls := calls w |}.

Definition set_last_error (e : Z) (w : world R) : world R :=
  {| request := request w; holder := holder w; checked_out := checked_out w;
     last_error := e; calls := calls w |}.

Definition log (c : call) (w : world R) : world R :=
  {| request := request w; holder := holder w; checked_out := checked_out w;
     last_error := last_error w; calls := calls w ++ [c] |}.

Definition set_message (m : aws_http_message) (rq : aws_s3_request R) : aws_s3_request R :=
  {| client := client rq; message := m; signable := signable rq;
     stream := stream rq; impl := impl rq |}.

Definition set_signable (s : option Z) (rq : aws_s3_request R) : aws_s3_request R :=
  {| client := client rq; message := message rq; signable := s;
     stream := stream rq; impl := impl rq |}.

Definition set_stream (s : option Z) (rq : aws_s3_request R) : aws_s3_request R :=
  {| client := client rq; message := message rq; signable := signable rq;
     stream := s; impl := impl rq |}.

(** A call into a collaborator: on failure it leaves its error behind. *)
Definition returned {A} (r : ext_result A) (w : world R) : world R :=
  match r with
  | Succeeds _ => w
  | Fails e => set_last_error e w
  end.

Definition aws_last_error (w : world R) : Z := last_error w.

(** Calls into the Request object. *)
Definition call_incoming_headers
  (block : aws_http_header_block) (headers : list aws_http_header) (num_headers : Z)
  (w : world R) : Z * world R :=
  let r := aws_s3_request_incoming_headers (request w) block headers num_headers in
  (fst r, set_request (snd r) (log (request_incoming_headers block headers num_headers) w)).

Definition call_incoming_header_block_done (block : aws_http_header_block)
  (w : world R) : Z * world R :=
  let r := aws_s3_request_incoming_header_block_done (request w) block in
  (fst r, set_request (snd r) (log (request_incoming_header_block_done block) w)).

Definition call_incoming_body (data : aws_byte_cursor) (w : world R) : Z * world R :=
  let r := aws_s3_request_incoming_body (request w) data in
  (fst r, set_request (snd r) (log (request_incoming_body data) w)).

Definition call_stream_complete (error_code : Z) (w : world R) : world R :=
  set_request (aws_s3_request_stream_complete (request w) error_code)
    (log (request_stream_complete error_code) w).

Definition call_finish (error_code : Z) (w : world R) : world R :=
  set_request (aws_s3_request_finish (request w) error_code)
    (log (request_finish error_code) w).

(** *** The functions of the file

    The arguments after the C function's own are the results of the calls it
    makes into collaborators. *)

Definition s3_client_make_request
  (client' : Client.aws_s3_client) (now : Z)
  (new_signable : ext_result Z) (sign : ext_result unit)
  (w : world R) : Z * world R :=
  let w := returned new_signable (log signable_new_http_request w) in
  let w :=
    set_request
      (set_signable (match new_signable with Succeeds s => Some s | Fails _ => None end)
         (request w)) w in
  match signable (request w) with
  | None => (AWS_OP_ERR, w)
  | Some s =>
      let service_name := "s3"%string in
      let signing_config :=
        {| config_type := AWS_SIGNING_CONFIG_AWS;
           algorithm := AWS_SIGNING_ALGORITHM_V4;
           credentials_provider := Client.credentials_provider client';
           region := Client.region client';
           service := service_name;
           date := now;
           signed_body_value := g_aws_signed_body_value_unsigned_payload;
           signed_body_header := AWS_SBHT_X_AMZ_CONTENT_SHA256 |} in
      let w := returned sign
                 (log (sign_request_aws s signing_config s_s3_client_signing_complete_fn)
                    w) in
      match sign with
      | Fails _ => (AWS_OP_ERR, w)
      | Succeeds _ =>
          (AWS_OP_SUCCESS, set_holder (Signer s_s3_client_signing_complete_fn) w)
      end
  end.

Definition s_s3_client_signing_complete
  (result : aws_signing_result) (error_code : Z) (apply : ext_result unit)
  (w : world R) : world R :=
  let client' := client (request w) in
  if negb (error_code =? AWS_OP_SUCCESS) then
    call_finish error_code w
  else
    let w := returned apply (log (apply_signing_result_to_http_request result) w) in
    match apply with
    | Fails _ =>
        let error_code := aws_last_error w in
        call_finish error_code w
    | Succeeds _ =>
        let w := set_request (set_message (message (request w) ++ result) (request w)) w in
        let w := log (connection_manager_acquire_connection
                        (Client.connection_manager client')
                        s_s3_client_on_acquire_connection_fn) w in
        set_holder (ConnectionManager s_s3_client_on_acquire_connection_fn) w
    end.

Definition s_s3_client_on_acquire_connection
  (connection : option Z) (error_code : Z)
  (make : ext_result Z) (activate : ext_result unit)
  (w : world R) : world R :=
  if negb (error_code =? AWS_ERROR_SUCCESS) then
    call_finish error_code w
  else
    let options :=
      {| options_request := message (request w);
         on_response_headers := Some s_s3_client_incoming_headers_fn;
         on_response_header_block_done := Some s_s3_client_incoming_header_block_done_fn;
         on_response_body := Some s_s3_client_incoming_body_fn;
         on_complete := Some s_s3_client_stream_complete_fn |} in
    let w := returned make (log (http_connection_make_request connection options) w) in
    let w :=
      set_request
        (set_stream (match make with Succeeds s => Some s | Fails _ => None end)
           (request w)) w in
    match stream (request w) with
    | None =>
        let error_code := aws_last_error w in
        call_finish error_code w
    | Some s =>
        let w := returned activate (log (http_stream_activate s) w) in
        match activate with
        | Fails _ =>
            let error_code := aws_last_error w in
            call_finish error_code w
        | Succeeds _ => set_holder (HttpStream options) w
        end
    end.

Definition s_s3_client_incoming_headers
  (stream' : option Z) (header_block : aws_http_header_block)
  (headers : list aws_http_header) (num_headers : Z)
  (w : world R) : Z * world R :=
  call_incoming_headers header_block headers num_headers w.

Definition s_s3_client_incoming_header_block_done
  (stream' : option Z) (header_block : aws_http_header_block)
  (w : world R) : Z * world R :=
  call_incoming_header_block_done header_block w.

Definition s_s3_client_incoming_body
  (stream' : option Z) (data : aws_byte_cursor)
  (w : world R) : Z * world R :=
  call_incoming_body data w.

Definition s_s3_client_stream_complete
  (stream' : option Z) (error_code : Z) (w : world R) : world R :=
  let w := call_stream_complete error_code w in
  call_finish error_code w.

(** *** The collaborators as an environment

    An event is a collaborator calling the callback it holds, together with
    the results of the calls that callback will make.  The signer and the
    connection manager call their completion once; a stream that was
    activated delivers response events to the slots of its options that are
    set and then completes once, and a stream that was not activated calls
    nothing. *)
Inductive env_event :=
| signing_done (result : aws_signing_result) (error_code : Z) (apply : ext_result unit)
| connection_done (connection : option Z) (error_code : Z)
    (make : ext_result Z) (activate : ext_result unit)
| headers_arrive (block : aws_http_header_block) (headers : list aws_http_header)
    (num_headers : Z)
| header_block_ends (block : aws_http_header_block)
| body_arrives (data : aws_byte_cursor)
| exchange_completes (error_code : Z).

(** The manager hands a connection over: it is checked out from then on. *)
Definition check_out (connection : option Z) (w : world R) : world R :=
  match connection with
  | Some c => set_checked_out (c :: checked_out w) w
  | None => w
  end.

Definition deliver (e : env_event) (w : world R) : option (world R) :=
  match holder w, e with
  | Signer s_s3_client_signing_complete_fn, signing_done result error_code apply =>
      Some (s_s3_client_signing_complete result error_code apply (set_holder Nobody w))
  | ConnectionManager s_s3_client_on_acquire_connection_fn,
    connection_done connection error_code make activate =>
      Some (s_s3_client_on_acquire_connection connection error_code make activate
              (check_out connection (set_holder Nobody w)))
  | HttpStream options, headers_arrive block headers num_headers =>
      match on_response_headers options with
      | Some s_s3_client_incoming_headers_fn =>
          Some (snd (s_s3_client_incoming_headers (stream (request w))
                       block headers num_headers w))
      | Some _ => None
      | None => Some w
      end
  | HttpStream options, header_block_ends block =>
      match on_response_header_block_done options with
      | Some s_s3_client_incoming_header_block_done_fn =>
          Some (snd (s_s3_client_incoming_header_block_done (stream (request w)) block w))
      | Some _ => None
      | None => Some w
      end
  | HttpStream options, body_arrives data =>
      match on_response_body options with
      | Some s_s3_client_incoming_body_fn =>
          Some (snd (s_s3_client_incoming_body (stream (request w)) data w))
      | Some _ => None
      | None => Some w
      end
  | HttpStream options, exchange_completes error_code =>
      match on_complete options with
      | Some s_s3_client_stream_complete_fn =>
          Some (s_s3_client_stream_complete (stream (request w)) error_code
                  (set_holder Nobody w))
      | Some _ => None
      | None => Some (set_holder Nobody w)
      end
  | _, _ => None
  end.

Fixpoint run (events : list env_event) (w : world R) : option (world R) :=
  match events with
  | [] => Some w
  | e :: rest =>
      match deliver e w with
      | Some w' => run rest w'
      | None => None
      end
  end.

(** The connection an event hands to the pipeline, if any. *)
Definition handed_over (e : env_event) : list Z :=
  match e with
  | connection_done (Some c) _ _ _ => [c]
  | _ => []
  end.

(** The code a failing event ends the request with. *)
Definition failure_code (e : env_event) : Z :=
  match e with
  | signing_done _ error_code apply =>
      if negb (error_code =? AWS_OP_SUCCESS) then error_code
      else match apply with Fails a => a | Succeeds _ => AWS_OP_SUCCESS end
  | connection_done _ error_code make activate =>
      if negb (error_code =? AWS_ERROR_SUCCESS) then error_code
      else match make, activate with
           | Fails m, _ => m
           | Succeeds _, Fails a => a
           | Succeeds _, Succeeds _ => AWS_ERROR_SUCCESS
           end
  | _ => AWS_ERROR_SUCCESS
  end.

(** Which stage an event fails, if any. *)
Definition stage_fails (e : env_event) : bool :=
  match e with
  | signing_done _ error_code apply =>
      negb (error_code =? AWS_OP_SUCCESS)
      || match apply with Fails _ => true | Succeeds _ => false end
  | connection_done _ error_code make activate =>
      negb (error_code =? AWS_ERROR_SUCCESS)
      || match make with Fails _ => true | Succeeds _ => false end
      || match activate with Fails _ => true | Succeeds _ => false end
  | _ => false
  end.

End WithRequestObject.

(** What was reported to the Request object's [finish] and
    [stream_complete], in order. *)
Definition finish_codes (l : list call) : list Z :=
  flat_map (fun c => match c with request_finish e => [e] | _ => [] end) l.

Definition stream_complete_codes (l : list call) : list Z :=
  flat_map (fun c => match c with request_stream_complete e => [e] | _ => [] end) l.

(** The four response callbacks of this file are in the four slots. *)
Definition forwards (options : aws_http_make_request_options) : Prop :=
  on_response_headers options = Some s_s3_client_incoming_headers_fn
  /\ on_response_header_block_done options = Some s_s3_client_incoming_header_block_done_fn
  /\ on_response_body options = Some s_s3_client_incoming_body_fn
  /\ on_complete options = Some s_s3_client_stream_complete_fn.

(** *** The invariant of a run that [s3_client_make_request] accepted

    [s] is the signable made at Start.  Until the stream is activated no
    handler of the Request object has run, the signable is still in the
    request and no connection is checked out; while a callback is
    outstanding neither [finish] nor [stream_complete] has been called; once
    none is, [finish] has been called exactly once. *)
Inductive pipeline_invariant {R : Type} (s : Z) (w : world R) : Prop :=
| awaiting :
    holder w = Signer s_s3_client_signing_complete_fn
    \/ holder w = ConnectionManager s_s3_client_on_acquire_connection_fn ->
    signable (request w) = Some s -> checked_out w = [] ->
    finish_codes (calls w) = [] -> stream_complete_codes (calls w) = [] ->
    pipeline_invariant s w
| streaming st options :
    holder w = HttpStream options -> forwards options ->
    In (http_stream_activate st) (calls w) ->
    finish_codes (calls w) = [] -> stream_complete_codes (calls w) = [] ->
    pipeline_invariant s w
| finished code :
    holder w = Nobody -> finish_codes (calls w) = [code] ->
    stream_complete_codes (calls w) = [] \/ stream_complete_codes (calls w) = [code] ->
    pipeline_invariant s w.

(** Two Request objects to run the pipeline on: one that only counts the
    notifications it gets, and one that, on [finish], disposes of the
    signable and of the stream it finds in the request. *)
Definition counting_request : RequestObject nat := {|
  aws_s3_request_incoming_headers rq _ _ _ :=
    (AWS_OP_SUCCESS,
     {| client := client rq; message := message rq; signable := signable rq;
        stream := stream rq; impl := S (impl rq) |});
  aws_s3_request_incoming_header_block_done rq _ :=
    (AWS_OP_SUCCESS,
     {| client := client rq; message := message rq; signable := signable rq;
        stream := stream rq; impl := S (impl rq) |});
  aws_s3_request_incoming_body rq data :=
    ((if (10 <? Z.of_nat (List.length data)) then AWS_OP_ERR else AWS_OP_SUCCESS),
     {| client := client rq; message := message rq; signable := signable rq;
        stream := stream rq; impl := S (impl rq) |});
  aws_s3_request_stream_complete rq _ :=
    {| client := client rq; message := message rq; signable := signable rq;
       stream := stream rq; impl := S (impl rq) |};
  aws_s3_request_finish rq _ :=
    {| client := client rq; message := message rq; signable := signable rq;
       stream := stream rq; impl := S (impl rq) |}
|}.

Definition disposing_request : RequestObject unit := {|
  aws_s3_request_incoming_headers rq _ _ _ := (AWS_OP_SUCCESS, rq);
  aws_s3_request_incoming_header_block_done rq _ := (AWS_OP_SUCCESS, rq);
  aws_s3_request_incoming_body rq _ := (AWS_OP_SUCCESS, rq);
  aws_s3_request_stream_complete rq _ := rq;
  aws_s3_request_finish rq _ :=
    {| client := client rq; message := message rq; signable := None;
       stream := None; impl := impl rq |}
|}.

(** *** Inputs used in the examples below *)

Definition example_request {R : Type} (r : R) : aws_s3_request R :=
  {| client := Client.example_client; message := [];
     signable := None; stream := None; impl := r |}.

Definition example_header : aws_http_header :=
  {| name := "content-length"; value := "3" |}.

(** Scenario A of the specification: everything succeeds, one header block
    and one body chunk arrive, and the exchange completes with code 0. *)
Definition scenario_a_response : list env_event :=
  [signing_done [example_header] 0 (Succeeds tt);
   connection_done (Some 7) 0 (Succeeds 3) (Succeeds tt);
   headers_arrive AWS_HTTP_HEADER_BLOCK_MAIN [example_header] 1;
   header_block_ends AWS_HTTP_HEADER_BLOCK_MAIN;
   body_arrives [Byte.x61; Byte.x62; Byte.x63]].

Definition scenario_a : list env_event :=
  scenario_a_response ++ [exchange_completes 0].

(** The connection is acquired and the stream cannot be created. *)
Definition signing_succeeds : list env_event :=
  [signing_done [example_header] 0 (Succeeds tt)].

Definition stream_creation_fails : env_event :=
  connection_done (Some 7) 0 (Fails 99) (Succeeds tt).

(** A start that is accepted (signable 11), on either Request object, and a
    start that is rejected because the signable cannot be made. *)
Definition accepted_start : world nat :=
  snd (s3_client_make_request Client.example_client 1000 (Succeeds 11) (Succeeds tt)
         (fresh (example_request 0%nat))).

Definition accepted_start_disposing : world unit :=
  snd (s3_client_make_request Client.example_client 1000 (Succeeds 11) (Succeeds tt)
         (fresh (example_request tt))).


Definition after_events {R : Type} (H : RequestObject R)
  (events : list env_event) (w : world R) : world R :=
  match run events w with
  | Some w' => w'
  | None => w
  end.

(** *** What the Request object is told

    The calls into the Request object among the calls of a run, and what
    the delivery of one event tells it. *)
Definition is_notification (c : call) : bool :=
  match c with
  | request_incoming_headers _ _ _
  | request_incoming_header_block_done _
  | request_incoming_body _
  | request_stream_complete _
  | request_finish _ => true
  | _ => false
  end.

Definition notifications (l : list call) : list call := filter is_notification l.

Definition notifications_of (e : env_event) : list call :=
  match e with
  | headers_arrive block headers num_headers =>
      [request_incoming_headers block headers num_headers]
  | header_block_ends block => [request_incoming_header_block_done block]
  | body_arrives data => [request_incoming_body data]
  | exchange_completes error_code =>
      [request_stream_complete error_code; request_finish error_code]
  | signing_done _ _ _ | connection_done _ _ _ _ =>
      if stage_fails e then [request_finish (failure_code e)] else []
  end.

(** Scenario B of the specification, for any code: signing succeeds and the
    connection manager reports a failure. *)
Definition acquisition_fails (result : aws_signing_result) (connection : option Z)
  (error_code : Z) (make : ext_result Z) (activate : ext_result unit)
  : list env_event :=
  [signing_done result 0 (Succeeds tt);
   connection_done connection error_code make activate].

End Pipeline.

(** * Properties of the client's life cycle *)

Section ClientLifecycle.
Import Client.
#[local] Arguments size_t : simpl never.

(** ** Construction *)

(** C7. With a bootstrap and a credentials provider in the configuration and
    every allocation succeeding, [aws_s3_client_new] returns the client, with
    reference count 1 and shutdown-wait count 1: the one subsystem that
    shuts down asynchronously, the connection manager, is live. *)
Theorem client_new_success_counts :
  forall allocator' cfg plan b p,
    config_client_bootstrap cfg = Some b ->
    config_credentials_provider cfg = Some p ->
    calloc_ok plan = true -> region_ok plan = true ->
    endpoint_ok plan = true -> manager_ok plan = true ->
    exists w c,
      aws_s3_client_new allocator' cfg plan initial_world = Ok CLIENT w
      /\ mem w = Live c
      /\ ref_count c = 1
      /\ shutdown_wait_count c = 1
      /\ exists m, connection_manager c = Some m /\ pool w = PoolLive m.
Proof.
  intros allocator' cfg plan b p Hb Hp Hc Hr He Hm.
  unfold aws_s3_client_new.
  rewrite Hb, Hp, Hc, Hr, He, Hm.
  cbn. eexists; eexists.
  split; [reflexivity|].
  cbn. repeat split; try reflexivity.
  eexists. split; reflexivity.
Qed.

Lemma client_new_success_counts_witness :
  exists w c,
    aws_s3_client_new 5 example_config all_succeed initial_world = Ok CLIENT w
    /\ mem w = Live c
    /\ ref_count c = 1
    /\ shutdown_wait_count c = 1
    /\ exists m, connection_manager c = Some m /\ pool w = PoolLive m.
Proof.
  apply (client_new_success_counts 5 example_config all_succeed 1 2); reflexivity.
Defined.

(** C8. Without a bootstrap or without a credentials provider,
    [aws_s3_client_new] returns [NULL] and raises
    [AWS_ERROR_INVALID_ARGUMENT]; that is all it does, in whatever state it is
    called: nothing is allocated, no connection manager is made and no
    reference on the provider is taken. *)
Theorem client_new_rejects_missing_dependency :
  forall allocator' cfg plan w,
    config_client_bootstrap cfg = None \/ config_credentials_provider cfg = None ->
    aws_s3_client_new allocator' cfg plan w
    = Ok NULL {| mem := mem w; pool := pool w;
                 last_error := AWS_ERROR_INVALID_ARGUMENT;
                 trace := trace w ++ [raise_error AWS_ERROR_INVALID_ARGUMENT] |}.
Proof.
  intros allocator' cfg plan w Hmissing.
  unfold aws_s3_client_new.
  destruct (config_client_bootstrap cfg) as [b|] eqn:Hb.
  - destruct Hmissing as [Hnone | Hnone]; [discriminate|].
    rewrite Hnone. reflexivity.
  - reflexivity.
Qed.

Lemma client_new_rejects_missing_dependency_witness :
  aws_s3_client_new 5 config_without_provider all_succeed initial_world
  = Ok NULL {| mem := Unallocated; pool := NoPool;
               last_error := AWS_ERROR_INVALID_ARGUMENT;
               trace := [raise_error AWS_ERROR_INVALID_ARGUMENT] |}.
Proof.
  apply (client_new_rejects_missing_dependency
           5 config_without_provider all_succeed initial_world).
  right. reflexivity.
Defined.

(** X6. When the region string, the endpoint string or the connection manager
    cannot be made, [aws_s3_client_new] returns [NULL] after
    [aws_s3_client_release] has run: the provider and the strings are given
    back, and the client's own block is still allocated, with both counts 0
    and no connection manager whose shutdown could release it. *)
Lemma client_new_failure_keeps_block :
  forall allocator' cfg plan b p,
    config_client_bootstrap cfg = Some b ->
    config_credentials_provider cfg = Some p ->
    calloc_ok plan = true ->
    region_ok plan && endpoint_ok plan && manager_ok plan = false ->
    exists w c,
      aws_s3_client_new allocator' cfg plan initial_world = Ok NULL w
      /\ mem w = Live c
      /\ pool w = NoPool
      /\ ref_count c = 0
      /\ shutdown_wait_count c = 0
      /\ mem_releases w = []
      /\ forall a, enabled a w = false.
Proof.
  intros allocator' cfg plan b p Hb Hp Hc Hfail.
  unfold aws_s3_client_new. rewrite Hb, Hp, Hc.
  destruct (region_ok plan); [destruct (endpoint_ok plan); [destruct (manager_ok plan)|]|];
    try discriminate Hfail;
    vm_compute; (eexists; eexists; split; [reflexivity|]);
    repeat split; intros []; reflexivity.
Qed.

(** C3 (the code does not do this). A configuration with bootstrap and
    provider, the region string failing to allocate: [NULL] is returned, the
    reference on the provider is given back, and the block from
    [aws_mem_calloc] stays allocated; no caller has it and no action of the
    life cycle is enabled, so it is never released. *)
Example client_new_region_failure_leaks_block :
  aws_s3_client_new 5 example_config region_fails initial_world
  = Ok NULL
      {| mem := Live {| allocator := 5; ref_count := 0; shutdown_wait_count := 0;
                        client_bootstrap := Some 1; credentials_provider := None;
                        region := None; endpoint := None; connection_manager := None;
                        shutdown_callback := Some 7;
                        shutdown_callback_user_data := 9 |};
         pool := NoPool;
         last_error := 0;
         trace := [mem_calloc; provider_acquire 2; provider_release 2] |}
  /\ enabled Acquire (world_of (aws_s3_client_new 5 example_config region_fails initial_world))
     = false
  /\ enabled Release (world_of (aws_s3_client_new 5 example_config region_fails initial_world))
     = false
  /\ enabled PoolShutdownComplete
       (world_of (aws_s3_client_new 5 example_config region_fails initial_world))
     = false.
Proof. vm_compute. repeat split. Qed.

(** ** The final release *)

Lemma zero_of_not_positive : forall z, (0 <? size_t z) = false -> size_t z = 0.
Proof.
  intros z Hz. apply Z.ltb_ge in Hz.
  unfold size_t, SIZE_MAX in *.
  pose proof (Z.mod_pos_bound z (2 ^ 64 - 1 + 1) ltac:(lia)). lia.
Qed.

(** C10. When the decrement brings the shutdown-wait count to zero, the
    function ends with exactly two calls, in this order: [aws_mem_release] of
    the client block, then the shutdown callback, called through the pointer
    read from the block before the release, whatever that pointer is (a
    [NULL] pointer is called too, which is a fault), with the user data read
    from the block before the release as its only argument.  The block is
    already freed when the callback runs. *)
Theorem dec_shutdown_wait_count_releases_then_calls_back :
  forall w c,
    mem w = Live c ->
    size_t (shutdown_wait_count c - 1) = 0 ->
    s_s3_client_dec_shutdown_wait_count w
    = (match shutdown_callback c with
       | Some _ => Ok tt
       | None => Fault NullFunctionCall
       end)
        {| mem := Freed; pool := pool w; last_error := last_error w;
           trace := trace w ++ [mem_release (set_shutdown_wait_count 0 c);
                                shutdown_callback_call (shutdown_callback c)
                                  (shutdown_callback_user_data c)] |}.
Proof.
  intros [m p e t] c Hlive Hzero. cbn in Hlive. subst m.
  unfold s_s3_client_dec_shutdown_wait_count, aws_atomic_fetch_sub.
  cbn. rewrite Hzero. cbn.
  rewrite <- app_assoc. cbn.
  destruct (shutdown_callback c); reflexivity.
Qed.

Lemma dec_shutdown_wait_count_releases_then_calls_back_witness :
  s_s3_client_dec_shutdown_wait_count
    {| mem := Live example_client; pool := PoolShutDown; last_error := 0; trace := [] |}
  = Ok tt
      {| mem := Freed; pool := PoolShutDown; last_error := 0;
         trace := [mem_release (set_shutdown_wait_count 0 example_client);
                   shutdown_callback_call (Some 7) 9] |}.
Proof.
  apply (dec_shutdown_wait_count_releases_then_calls_back
           {| mem := Live example_client; pool := PoolShutDown;
              last_error := 0; trace := [] |} example_client);
    reflexivity.
Defined.

(** ** Deferred release *)

Lemma mem_releases_snoc :
  forall t e, filter is_mem_release (t ++ [e])
              = filter is_mem_release t ++ (if is_mem_release e then [e] else []).
Proof. intros t e. rewrite filter_app. reflexivity. Qed.

Ltac trace_step :=
  unfold mem_releases in *; cbn in *;
  repeat (rewrite mem_releases_snoc; cbn);
  rewrite ?app_nil_r.

(** While other subsystems are still shutting down the decrement only
    stores the new count. *)
Lemma dec_shutdown_wait_count_waits :
  forall w c,
    mem w = Live c ->
    0 < size_t (shutdown_wait_count c - 1) ->
    s_s3_client_dec_shutdown_wait_count w
    = Ok tt {| mem := Live (set_shutdown_wait_count
                              (size_t (shutdown_wait_count c - 1)) c);
               pool := pool w; last_error := last_error w; trace := trace w |}.
Proof.
  intros [m p e t] c Hlive Hpos. cbn in Hlive. subst m.
  unfold s_s3_client_dec_shutdown_wait_count, aws_atomic_fetch_sub.
  cbn. apply Z.ltb_lt in Hpos. rewrite Hpos. reflexivity.
Qed.

(** X1. [aws_s3_client_release] never releases the client block, whatever the
    count becomes: the block is live afterwards and the releases of the
    block recorded so far are the same. *)
Lemma release_keeps_block :
  forall w c,
    mem w = Live c ->
    exists w' c',
      aws_s3_client_release w = Ok tt w'
      /\ mem w' = Live c'
      /\ ref_count c' = size_t (ref_count c - 1)
      /\ shutdown_wait_count c' = shutdown_wait_count c
      /\ mem_releases w' = mem_releases w.
Proof.
  intros [m p e t] [al rc swc cb cp rg ep cm scb sud] Hlive. cbn in Hlive. subst m.
  unfold aws_s3_client_release, aws_atomic_fetch_sub. cbn.
  destruct (0 <? size_t (rc - 1)).
  - eexists; eexists. repeat split.
  - destruct cp, cm, rg, ep; cbn; eexists; eexists;
      (split; [reflexivity|]); repeat split; trace_step; reflexivity.
Qed.

(** Established by construction, whatever its outcome. *)
Lemma invariant_after_new :
  forall allocator' cfg plan,
    lifecycle_invariant (world_of (aws_s3_client_new allocator' cfg plan initial_world)).
Proof.
  intros allocator' cfg [c r e m].
  unfold aws_s3_client_new.
  destruct (config_client_bootstrap cfg) as [b|]; [|now apply no_client].
  destruct (config_credentials_provider cfg) as [p|]; [|now apply no_client].
  destruct c; [|now apply no_client].
  destruct r; [destruct e; [destruct m|]|].
  - eapply in_use; try (vm_compute; reflexivity). split; reflexivity.
  - eapply abandoned; vm_compute; reflexivity.
  - eapply abandoned; vm_compute; reflexivity.
  - eapply abandoned; vm_compute; reflexivity.
Qed.

(** Preserved by every enabled action. *)
Lemma invariant_preserved :
  forall a w,
    lifecycle_invariant w -> enabled a w = true ->
    lifecycle_invariant (world_of (fire a w)).
Proof.
  intros a [m p le t] Hinv Hen.
  destruct Hinv as [Hm Hp Hr | c Hm Hp Hc Hr | c mg Hm Hp Hmg Hcb Hs Hr
                   | c mg Hm Hp Hcb Hc Hs Hr | block Hm Hp Hr Hc Hs];
    try destruct c as [al rc swc cb cp rg ep cm scb sud];
    cbn in *; subst.
  - destruct a; discriminate Hen.
  - destruct a; discriminate Hen.
  - destruct a; [ | | discriminate Hen].
    + (* acquire *)
      eapply in_use with (m := mg); reflexivity || assumption.
    + (* release *)
      unfold fire, aws_s3_client_release, aws_atomic_fetch_sub. cbn.
      destruct (0 <? size_t (rc - 1)) eqn:Hpos.
      * eapply in_use with (m := mg); reflexivity || assumption.
      * apply zero_of_not_positive in Hpos.
        destruct cp, rg, ep; cbn;
          (eapply shutting_down with (m := mg);
           [reflexivity | reflexivity | exact Hcb | exact Hpos | reflexivity
           | trace_step; exact Hr]).
  - destruct a; [discriminate Hen | discriminate Hen | ].
    (* the connection manager has shut down *)
    destruct Hcb as [Hfn Hud].
    unfold fire, shutdown_complete. cbn. rewrite Hfn, Hud.
    unfold s_s3_client_connection_manager_shutdown_callback,
      s_s3_client_dec_shutdown_wait_count, aws_atomic_fetch_sub.
    cbn. change (size_t 0) with 0. cbn.
    destruct scb;
      (eapply released with
         (block := {| allocator := al; ref_count := 0; shutdown_wait_count := 0;
                      client_bootstrap := cb; credentials_provider := cp;
                      region := rg; endpoint := ep; connection_manager := cm;
                      shutdown_callback := _;
                      shutdown_callback_user_data := sud |});
       [reflexivity | reflexivity | trace_step; rewrite Hr; reflexivity
       | reflexivity | reflexivity]).
  - destruct a; discriminate Hen.
Qed.

Lemma invariant_along_run :
  forall schedule w o,
    lifecycle_invariant w -> run schedule w = Some o ->
    lifecycle_invariant (world_of o).
Proof.
  induction schedule as [|a rest IH]; intros w o Hinv Hrun; cbn in Hrun.
  - injection Hrun as <-. exact Hinv.
  - destruct (enabled a w) eqn:Hen; [|discriminate].
    pose proof (invariant_preserved a w Hinv Hen) as Hstep.
    destruct (fire a w) as [[] w' | f w'].
    + eapply IH; eassumption.
    + destruct rest; [|discriminate].
      injection Hrun as <-. exact Hstep.
Qed.

(** C2. Start from whatever [aws_s3_client_new] leaves behind and run any
    schedule of acquires and releases by holders of a reference and of the
    connection manager's shutdown callback (which the manager calls once,
    after it was released).  Then every [aws_mem_release] of the client block
    releases a block whose reference count is 0 and whose shutdown-wait count
    is 0; there is at most one such release; the block is freed only by such
    a release; and when the reference count has reached 0 and the manager has
    not yet reported its shutdown, the block is still live. *)
Theorem block_released_only_when_both_counts_are_zero :
  forall allocator' cfg plan schedule o,
    run schedule (world_of (aws_s3_client_new allocator' cfg plan initial_world)) = Some o ->
    (forall block, In (mem_release block) (trace (world_of o)) ->
                   ref_count block = 0 /\ shutdown_wait_count block = 0)
    /\ (List.length (mem_releases (world_of o)) <= 1)%nat
    /\ (mem (world_of o) = Freed -> mem_releases (world_of o) <> [])
    /\ (forall m, pool (world_of o) = PoolShuttingDown m ->
        exists c, mem (world_of o) = Live c /\ ref_count c = 0
                  /\ shutdown_wait_count c = 1 /\ mem_releases (world_of o) = []).
Proof.
  intros allocator' cfg plan schedule o Hrun.
  pose proof (invariant_along_run _ _ _ (invariant_after_new allocator' cfg plan) Hrun)
    as Hinv.
  assert (Hin : forall block, In (mem_release block) (trace (world_of o)) ->
                              In (mem_release block) (mem_releases (world_of o))).
  { intros block Hb. unfold mem_releases. apply filter_In. split; [exact Hb | reflexivity]. }
  assert (Hnone : mem_releases (world_of o) = [] ->
                  (forall block, In (mem_release block) (trace (world_of o)) ->
                                 ref_count block = 0 /\ shutdown_wait_count block = 0)
                  /\ (List.length (mem_releases (world_of o)) <= 1)%nat).
  { intros Hr. split.
    - intros block Hb. apply Hin in Hb. rewrite Hr in Hb. destruct Hb.
    - rewrite Hr. cbn. lia. }
  destruct Hinv as [Hm Hp Hr | c Hm Hp Hc Hr | c mg Hm Hp Hmg Hcb Hs Hr
                   | c mg Hm Hp Hcb Hc Hs Hr | freed Hm Hp Hr Hc Hs].
  - destruct (Hnone Hr) as [H1 H2]. repeat apply conj; try assumption.
    + intros Hf. rewrite Hm in Hf. discriminate Hf.
    + intros m Hq. rewrite Hp in Hq. discriminate Hq.
  - destruct (Hnone Hr) as [H1 H2]. repeat apply conj; try assumption.
    + intros Hf. rewrite Hm in Hf. discriminate Hf.
    + intros m Hq. rewrite Hp in Hq. discriminate Hq.
  - destruct (Hnone Hr) as [H1 H2]. repeat apply conj; try assumption.
    + intros Hf. rewrite Hm in Hf. discriminate Hf.
    + intros m Hq. rewrite Hp in Hq. discriminate Hq.
  - destruct (Hnone Hr) as [H1 H2]. repeat apply conj; try assumption.
    + intros Hf. rewrite Hm in Hf. discriminate Hf.
    + intros m _. exists c. repeat apply conj; assumption.
  - repeat apply conj.
    + intros block Hb. apply Hin in Hb. rewrite Hr in Hb.
      destruct Hb as [Heq | []]. injection Heq as <-. split; assumption.
    + rewrite Hr. cbn. lia.
    + intros _. rewrite Hr. discriminate.
    + intros m Hq. rewrite Hp in Hq. discriminate Hq.
Qed.

Lemma block_released_only_when_both_counts_are_zero_witness :
  (forall block, In (mem_release block) (trace (world_of example_outcome)) ->
                 ref_count block = 0 /\ shutdown_wait_count block = 0)
  /\ (List.length (mem_releases (world_of example_outcome)) <= 1)%nat
  /\ (mem (world_of example_outcome) = Freed -> mem_releases (world_of example_outcome) <> [])
  /\ (forall m, pool (world_of example_outcome) = PoolShuttingDown m ->
      exists c, mem (world_of example_outcome) = Live c /\ ref_count c = 0
                /\ shutdown_wait_count c = 1 /\ mem_releases (world_of example_outcome) = []).
Proof.
  apply (block_released_only_when_both_counts_are_zero
           5 example_config all_succeed example_schedule example_outcome).
  vm_compute. reflexivity.
Defined.

(** The reference count reaching zero is not enough: after the last release
    the block is live until the connection manager reports its shutdown. *)
Example last_release_keeps_block :
  exists w c,
    run [Release] (world_of (aws_s3_client_new 5 example_config all_succeed initial_world))
    = Some (Ok tt w)
    /\ mem w = Live c /\ ref_count c = 0 /\ shutdown_wait_count c = 1
    /\ (exists m, pool w = PoolShuttingDown m) /\ mem_releases w = [].
Proof.
  eexists; eexists. split; [vm_compute; reflexivity|].
  vm_compute. repeat split. eexists. reflexivity.
Qed.

End ClientLifecycle.

(** * Properties of the request pipeline *)

Section RequestPipeline.
Import Pipeline.
Context {R : Type} `{RequestObject R}.
#[local] Arguments finish_codes !l : simpl nomatch.
#[local] Arguments stream_complete_codes !l : simpl nomatch.

Lemma finish_codes_snoc :
  forall l c, finish_codes (l ++ [c]) = finish_codes l ++ finish_codes [c].
Proof. intros l c. unfold finish_codes. apply flat_map_app. Qed.

Lemma stream_complete_codes_snoc :
  forall l c,
    stream_complete_codes (l ++ [c]) = stream_complete_codes l ++ stream_complete_codes [c].
Proof. intros l c. unfold stream_complete_codes. apply flat_map_app. Qed.

Lemma run_app :
  forall (events1 events2 : list env_event) (w : world R),
    run (events1 ++ events2) w
    = match run events1 w with
      | Some w' => run events2 w'
      | None => None
      end.
Proof.
  induction events1 as [|e rest IH]; intros events2 w; cbn.
  - reflexivity.
  - destruct (deliver e w); [apply IH | reflexivity].
Qed.

(** Nothing is delivered to a request no collaborator holds a callback of. *)
Lemma deliver_nobody :
  forall (e : env_event) (w : world R), holder w = Nobody -> deliver e w = None.
Proof. intros e w Hn. unfold deliver. rewrite Hn. reflexivity. Qed.

Lemma run_nobody :
  forall (events : list env_event) (w w' : world R),
    holder w = Nobody -> run events w = Some w' -> events = [] /\ w' = w.
Proof.
  intros [|e rest] w w' Hn Hrun; cbn in Hrun.
  - injection Hrun as <-. split; reflexivity.
  - rewrite (deliver_nobody e w Hn) in Hrun. discriminate Hrun.
Qed.

Ltac calls_step :=
  cbn;
  repeat (rewrite ?finish_codes_snoc, ?stream_complete_codes_snoc; cbn);
  rewrite ?app_nil_r.

Lemma invariant_after_start :
  forall client' now new_signable sign (rq : aws_s3_request R) w0,
    s3_client_make_request client' now new_signable sign (fresh rq) = (AWS_OP_SUCCESS, w0) ->
    exists s, new_signable = Succeeds s /\ pipeline_invariant s w0.
Proof.
  intros client' now new_signable sign rq w0 Hstart.
  unfold s3_client_make_request in Hstart.
  destruct new_signable as [s|e]; cbn in Hstart; [|discriminate Hstart].
  destruct sign as [[]|e]; cbn in Hstart; [|discriminate Hstart].
  injection Hstart as <-.
  exists s. split; [reflexivity|].
  apply awaiting; cbn; auto.
Qed.

Lemma rejected_start :
  forall client' now new_signable sign (rq : aws_s3_request R) rc w0,
    s3_client_make_request client' now new_signable sign (fresh rq) = (rc, w0) ->
    rc <> AWS_OP_SUCCESS ->
    rc = AWS_OP_ERR /\ holder w0 = Nobody /\ finish_codes (calls w0) = []
    /\ ((exists e, new_signable = Fails e) \/ (exists e, sign = Fails e)).
Proof.
  intros client' now new_signable sign rq rc w0 Hstart Hrc.
  unfold s3_client_make_request in Hstart.
  destruct new_signable as [s|e]; cbn in Hstart.
  - destruct sign as [[]|e]; cbn in Hstart; injection Hstart as <- <-.
    + contradiction Hrc. reflexivity.
    + repeat split. right. exists e. reflexivity.
  - injection Hstart as <- <-. repeat split. left. exists e. reflexivity.
Qed.

Lemma invariant_delivered :
  forall s e (w w' : world R),
    pipeline_invariant s w -> deliver e w = Some w' -> pipeline_invariant s w'.
Proof.
  intros s e [rq h co le cs] w' Hinv Hdel.
  destruct Hinv as [Hh Hs Hco Hf Hsc | st o Hh Ho Hact Hf Hsc | code Hh Hf Hsc];
    cbn in *.
  - (* before the stream *)
    destruct Hh as [-> | ->]; destruct e; cbn in Hdel; try discriminate Hdel;
      injection Hdel as <-.
    + unfold s_s3_client_signing_complete.
      destruct (error_code =? AWS_OP_SUCCESS); cbn.
      * destruct apply as [[]|a]; cbn.
        -- apply awaiting; calls_step; auto.
        -- eapply finished; calls_step; rewrite ?Hf, ?Hsc; cbn; try reflexivity; eauto.
      * eapply finished; calls_step; rewrite ?Hf, ?Hsc; cbn; try reflexivity; eauto.
    + unfold s_s3_client_on_acquire_connection.
      destruct connection as [c|];
        (destruct (error_code =? AWS_ERROR_SUCCESS); cbn;
         [ destruct make as [st|m]; cbn;
           [ destruct activate as [[]|a]; cbn;
             [ eapply streaming with (st := st);
               [ reflexivity
               | repeat split
               | calls_step; apply in_or_app; right; left; reflexivity
               | calls_step; rewrite ?Hf; reflexivity
               | calls_step; rewrite ?Hsc; reflexivity ]
             | eapply finished; calls_step; rewrite ?Hf, ?Hsc;
               cbn; try reflexivity; eauto ]
           | eapply finished; calls_step; rewrite ?Hf, ?Hsc;
             cbn; try reflexivity; eauto ]
         | eapply finished; calls_step; rewrite ?Hf, ?Hsc;
           cbn; try reflexivity; eauto ]).
  - (* streaming *)
    subst h. destruct Ho as [Ho1 [Ho2 [Ho3 Ho4]]].
    destruct e; cbn in Hdel; rewrite ?Ho1, ?Ho2, ?Ho3, ?Ho4 in Hdel;
      try discriminate Hdel; injection Hdel as <-.
    + eapply streaming with (st := st) (options := o);
        [ reflexivity | repeat split; assumption
        | calls_step; apply in_or_app; left; exact Hact
        | calls_step; rewrite ?Hf; reflexivity
        | calls_step; rewrite ?Hsc; reflexivity ].
    + eapply streaming with (st := st) (options := o);
        [ reflexivity | repeat split; assumption
        | calls_step; apply in_or_app; left; exact Hact
        | calls_step; rewrite ?Hf; reflexivity
        | calls_step; rewrite ?Hsc; reflexivity ].
    + eapply streaming with (st := st) (options := o);
        [ reflexivity | repeat split; assumption
        | calls_step; apply in_or_app; left; exact Hact
        | calls_step; rewrite ?Hf; reflexivity
        | calls_step; rewrite ?Hsc; reflexivity ].
    + eapply finished with (code := error_code); calls_step; rewrite ?Hf, ?Hsc;
        cbn; try reflexivity; eauto.
  - subst h. destruct e; discriminate Hdel.
Qed.

Lemma invariant_along_events :
  forall s events (w w' : world R),
    pipeline_invariant s w -> run events w = Some w' -> pipeline_invariant s w'.
Proof.
  intros s events. induction events as [|e rest IH]; intros w w' Hinv Hrun; cbn in Hrun.
  - injection Hrun as <-. exact Hinv.
  - destruct (deliver e w) as [w1|] eqn:Hdel; [|discriminate Hrun].
    eapply IH; [|exact Hrun]. eapply invariant_delivered; eassumption.
Qed.

(** Every outstanding callback can be called: a request in flight can always
    be brought to its end. *)
Lemma in_flight_can_finish :
  forall s (w : world R),
    pipeline_invariant s w -> holder w <> Nobody ->
    exists e w', deliver e w = Some w' /\ holder w' = Nobody.
Proof.
  intros s [rq h co le cs] Hinv Hh.
  destruct Hinv as [Hw _ _ _ _ | st o Hw [_ [_ [_ Ho]]] _ _ _ | code Hw _ _]; cbn in *.
  - destruct Hw as [-> | ->].
    + exists (signing_done [] 1 (Succeeds tt)). eexists. split; reflexivity.
    + exists (connection_done None 1 (Succeeds 0) (Succeeds tt)). eexists.
      split; reflexivity.
  - subst h. exists (exchange_completes 0). eexists. cbn. rewrite Ho.
    split; reflexivity.
  - contradiction.
Qed.

(** ** Finish *)


(** ** Exchange completion *)

(** C5. In every run, when the exchange completes with [error_code] (which
    only a stream that was created and activated can do), the Request
    object's [stream_complete] handler is applied to the request with
    exactly [error_code], then its [finish] handler is applied to the result
    with exactly the same [error_code]; these are the last two calls, and
    neither notification was made before. *)
Theorem exchange_completion_is_reported_then_finished :
  forall client' now new_signable sign (rq : aws_s3_request R) rc w0 events error_code w,
    s3_client_make_request client' now new_signable sign (fresh rq) = (rc, w0) ->
    run (events ++ [exchange_completes error_code]) w0 = Some w ->
    exists w1 st,
      run events w0 = Some w1
      /\ request w
         = aws_s3_request_finish
             (aws_s3_request_stream_complete (request w1) error_code) error_code
      /\ calls w
         = calls w1 ++ [request_stream_complete error_code; request_finish error_code]
      /\ In (http_stream_activate st) (calls w1)
      /\ finish_codes (calls w1) = []
      /\ stream_complete_codes (calls w1) = []
      /\ holder w = Nobody.
Proof.
  intros client' now new_signable sign rq rc w0 events error_code w Hstart Hrun.
  rewrite run_app in Hrun.
  destruct (run events w0) as [w1|] eqn:Hrun1; [|discriminate Hrun].
  cbn in Hrun.
  destruct (deliver (exchange_completes error_code) w1) as [w2|] eqn:Hdel;
    [|discriminate Hrun].
  injection Hrun as <-.
  destruct (Z.eq_dec rc AWS_OP_SUCCESS) as [-> | Hrc].
  - destruct (invariant_after_start _ _ _ _ _ _ Hstart) as [s [_ Hinv]].
    pose proof (invariant_along_events _ _ _ _ Hinv Hrun1) as Hmid.
    destruct w1 as [rq1 h co le cs].
    destruct Hmid as [Hh _ _ _ _ | st o Hh [_ [_ [_ Ho]]] Hact Hf Hsc | code Hh _ _];
      cbn in *.
    + destruct Hh as [-> | ->]; discriminate Hdel.
    + subst h. cbn in Hdel. rewrite Ho in Hdel. injection Hdel as <-.
      eexists; exists st. split; [reflexivity|].
      cbn. rewrite <- app_assoc. repeat split; assumption.
    + subst h. discriminate Hdel.
  - destruct (rejected_start _ _ _ _ _ _ _ Hstart Hrc) as [_ [Hh _]].
    destruct (run_nobody _ _ _ Hh Hrun1) as [_ ->].
    rewrite (deliver_nobody _ _ Hh) in Hdel. discriminate Hdel.
Qed.

(** ** Signing failure *)

(** C6. When the signer's completion reports a nonzero code, or applying
    the signing result fails, the request ends there: [finish] gets the code,
    nothing can be delivered afterwards, and [stream_complete] is never
    called. *)
Theorem signing_failure_skips_stream_complete :
  forall client' now new_signable sign (rq : aws_s3_request R) rc w0
         result error_code apply events w,
    s3_client_make_request client' now new_signable sign (fresh rq) = (rc, w0) ->
    stage_fails (signing_done result error_code apply) = true ->
    run (signing_done result error_code apply :: events) w0 = Some w ->
    events = []
    /\ stream_complete_codes (calls w) = []
    /\ finish_codes (calls w) = [failure_code (signing_done result error_code apply)]
    /\ holder w = Nobody.
Proof.
  intros client' now new_signable sign rq rc w0 result error_code apply events w
         Hstart Hfail Hrun.
  cbn in Hrun.
  destruct (deliver (signing_done result error_code apply) w0) as [w1|] eqn:Hdel;
    [|discriminate Hrun].
  destruct (Z.eq_dec rc AWS_OP_SUCCESS) as [-> | Hrc].
  - destruct (invariant_after_start _ _ _ _ _ _ Hstart) as [s [_ Hinv]].
    destruct w0 as [rq0 h co le cs].
    destruct Hinv as [Hh _ _ Hf Hsc | st o Hh _ _ _ _ | code Hh _ _]; cbn in *;
      [ | subst h; discriminate Hdel | subst h; discriminate Hdel ].
    destruct Hh as [-> | ->]; [|discriminate Hdel].
    cbn in Hdel. injection Hdel as <-.
    assert (Hend : holder
                     (s_s3_client_signing_complete result error_code apply
                        (set_holder Nobody
                           {| request := rq0;
                              holder := Signer s_s3_client_signing_complete_fn;
                              checked_out := co;
                              last_error := le; calls := cs |})) = Nobody
                   /\ stream_complete_codes
                        (calls (s_s3_client_signing_complete result error_code apply
                                  (set_holder Nobody
                                     {| request := rq0;
                                        holder := Signer s_s3_client_signing_complete_fn;
                                        checked_out := co; last_error := le;
                                        calls := cs |}))) = []
                   /\ finish_codes
                        (calls (s_s3_client_signing_complete result error_code apply
                                  (set_holder Nobody
                                     {| request := rq0;
                                        holder := Signer s_s3_client_signing_complete_fn;
                                        checked_out := co; last_error := le;
                                        calls := cs |})))
                      = [if negb (error_code =? AWS_OP_SUCCESS) then error_code
                         else match apply with
                              | Fails a => a
                              | Succeeds _ => AWS_OP_SUCCESS
                              end]).
    { unfold s_s3_client_signing_complete.
      destruct (error_code =? AWS_OP_SUCCESS); cbn in *.
      - destruct apply as [[]|a]; [discriminate Hfail|].
        calls_step. rewrite Hf, Hsc. repeat split.
      - calls_step. rewrite Hf, Hsc. repeat split. }
    destruct Hend as [Hh [Hsc' Hf']].
    destruct (run_nobody _ _ _ Hh Hrun) as [-> ->].
    repeat split; assumption.
  - destruct (rejected_start _ _ _ _ _ _ _ Hstart Hrc) as [_ [Hh _]].
    rewrite (deliver_nobody _ _ Hh) in Hdel. discriminate Hdel.
Qed.

(** ** What a failing stage leaves behind *)

(** The failing paths of the two completion callbacks: the callback's last
    action is the call of [finish] with the code of the failure, and the
    callback itself has made no call that gives anything back before it. *)
Lemma failed_stage_releases_nothing_before_finish :
  forall client' now s sign (rq : aws_s3_request R) w0 events w1 e w',
    s3_client_make_request client' now (Succeeds s) sign (fresh rq) = (AWS_OP_SUCCESS, w0) ->
    run events w0 = Some w1 ->
    stage_fails e = true ->
    deliver e w1 = Some w' ->
    exists before_finish,
      w' = call_finish (failure_code e) before_finish
      /\ signable (request before_finish) = Some s
      /\ checked_out before_finish = handed_over e
      /\ finish_codes (calls before_finish) = []
      /\ holder w' = Nobody.
Proof.
  intros client' now s sign rq w0 events w1 e w' Hstart Hrun Hfail Hdel.
  destruct (invariant_after_start _ _ _ _ _ _ Hstart) as [s' [Heq Hinv]].
  injection Heq as <-.
  pose proof (invariant_along_events _ _ _ _ Hinv Hrun) as Hmid.
  destruct w1 as [rq1 h co le cs].
  destruct Hmid as [Hh Hs Hco Hf Hsc | st o Hh [Ho1 [Ho2 [Ho3 Ho4]]] _ _ _ | code Hh _ _];
    cbn in *.
  - subst co.
    destruct Hh as [-> | ->]; destruct e; cbn in Hdel; try discriminate Hdel;
      injection Hdel as <-; cbn in Hfail.
    + unfold s_s3_client_signing_complete, failure_code.
      destruct (error_code =? AWS_OP_SUCCESS); cbn in *.
      * destruct apply as [[]|a]; [discriminate Hfail|].
        eexists. split; [reflexivity|]. calls_step. rewrite Hf. repeat split; assumption.
      * eexists. split; [reflexivity|]. calls_step. repeat split; assumption.
    + unfold s_s3_client_on_acquire_connection, failure_code.
      destruct connection as [c|];
        (destruct (error_code =? AWS_ERROR_SUCCESS); cbn in *;
         [ destruct make as [st|m]; cbn in *;
           [ destruct activate as [[]|a]; [discriminate Hfail|];
             eexists; (split; [reflexivity|]); calls_step; rewrite Hf;
             repeat split; assumption
           | eexists; (split; [reflexivity|]); calls_step; rewrite Hf;
             repeat split; assumption ]
         | eexists; (split; [reflexivity|]); calls_step; repeat split; assumption ]).
  - subst h. destruct e; cbn in Hdel, Hfail; try discriminate Hdel; discriminate Hfail.
  - subst h. destruct e; discriminate Hdel.
Qed.

(** ** Response events *)

(** C9. Each of the three data hooks calls the Request object's handler of
    the same name with the arguments it was given, whatever the stream
    argument is, and returns the handler's status; in the state only the
    request changes, as its handler changed it (and the call is noted). *)
Theorem data_hooks_pass_through :
  forall (w : world R) stream' block headers num_headers data,
    s_s3_client_incoming_headers stream' block headers num_headers w
    = (fst (aws_s3_request_incoming_headers (request w) block headers num_headers),
       {| request := snd (aws_s3_request_incoming_headers (request w) block headers
                            num_headers);
          holder := holder w; checked_out := checked_out w; last_error := last_error w;
          calls := calls w ++ [request_incoming_headers block headers num_headers] |})
    /\ s_s3_client_incoming_header_block_done stream' block w
       = (fst (aws_s3_request_incoming_header_block_done (request w) block),
          {| request := snd (aws_s3_request_incoming_header_block_done (request w) block);
             holder := holder w; checked_out := checked_out w; last_error := last_error w;
             calls := calls w ++ [request_incoming_header_block_done block] |})
    /\ s_s3_client_incoming_body stream' data w
       = (fst (aws_s3_request_incoming_body (request w) data),
          {| request := snd (aws_s3_request_incoming_body (request w) data);
             holder := holder w; checked_out := checked_out w; last_error := last_error w;
             calls := calls w ++ [request_incoming_body data] |}).
Proof.
  intros w stream' block headers num_headers data.
  repeat split.
Qed.

End RequestPipeline.

(** * The pipeline on concrete runs *)

Section PipelineRuns.
Import Pipeline.

(** Scenario A: the Request object is notified in the order headers,
    header block done, body, stream_complete(0), finish(0). *)
Example scenario_a_order :
  option_map (fun w => (skipn 6 (calls w), holder w))
    (@run nat counting_request scenario_a accepted_start)
  = Some ([request_incoming_headers AWS_HTTP_HEADER_BLOCK_MAIN [example_header] 1;
           request_incoming_header_block_done AWS_HTTP_HEADER_BLOCK_MAIN;
           request_incoming_body [Byte.x61; Byte.x62; Byte.x63];
           request_stream_complete 0;
           request_finish 0], Nobody).
Proof. vm_compute. reflexivity. Qed.

(** Scenario B: the connection manager reports failure 42; the only
    notification is finish(42). *)
Example scenario_b_only_finish :
  option_map (fun w => (skipn 4 (calls w), holder w))
    (@run nat counting_request
       (signing_succeeds ++ [connection_done None 42 (Succeeds 0) (Succeeds tt)])
       accepted_start)
  = Some ([request_finish 42], Nobody).
Proof. vm_compute. reflexivity. Qed.



Lemma exchange_completion_is_reported_then_finished_witness :
  exists w1 st,
    @run nat counting_request scenario_a_response accepted_start = Some w1
    /\ request (after_events counting_request scenario_a accepted_start)
       = @aws_s3_request_finish nat counting_request
           (@aws_s3_request_stream_complete nat counting_request (request w1) 0) 0
    /\ calls (after_events counting_request scenario_a accepted_start)
       = calls w1 ++ [request_stream_complete 0; request_finish 0]
    /\ In (http_stream_activate st) (calls w1)
    /\ finish_codes (calls w1) = []
    /\ stream_complete_codes (calls w1) = []
    /\ holder (after_events counting_request scenario_a accepted_start) = Nobody.
Proof.
  apply (@exchange_completion_is_reported_then_finished nat counting_request
           Client.example_client 1000 (Succeeds 11) (Succeeds tt) (example_request 0%nat)
           AWS_OP_SUCCESS accepted_start scenario_a_response 0
           (after_events counting_request scenario_a accepted_start)).
  - reflexivity.
  - vm_compute. reflexivity.
Defined.

Lemma signing_failure_skips_stream_complete_witness :
  @nil env_event = []
  /\ stream_complete_codes
       (calls (after_events counting_request [signing_done [] 5 (Succeeds tt)]
                 accepted_start)) = []
  /\ finish_codes
       (calls (after_events counting_request [signing_done [] 5 (Succeeds tt)]
                 accepted_start))
     = [failure_code (signing_done [] 5 (Succeeds tt))]
  /\ holder (after_events counting_request [signing_done [] 5 (Succeeds tt)] accepted_start)
     = Nobody.
Proof.
  apply (@signing_failure_skips_stream_complete nat counting_request
           Client.example_client 1000 (Succeeds 11) (Succeeds tt) (example_request 0%nat)
           AWS_OP_SUCCESS accepted_start [] 5 (Succeeds tt) []
           (after_events counting_request [signing_done [] 5 (Succeeds tt)]
              accepted_start)).
  - reflexivity.
  - reflexivity.
  - vm_compute. reflexivity.
Defined.

(** C4 (the code does not do this).  Signing succeeds, the manager hands
    over connection 7, and [aws_http_connection_make_request] returns [NULL]
    (error 99).  The callback goes to [error_clean_up] and calls
    [finish(99)], during which this Request object disposes of the signable;
    connection 7 was never given back to the manager and is still checked
    out afterwards: it was a parameter of the callback, and the request,
    whose stream is [NULL], has nothing that refers to it. *)
Lemma stream_creation_failure_leaves_connection_out :
  option_map
    (fun w => (finish_codes (calls w), signable (request w), stream (request w),
               checked_out w, holder w))
    (@run unit disposing_request (signing_succeeds ++ [stream_creation_fails])
       accepted_start_disposing)
  = Some ([99], None, None, [7], Nobody).
Proof. vm_compute. reflexivity. Qed.

End PipelineRuns.

(** * More on the client: counters, teardown and the ledger *)

Section ClientCounters.
Import Client.
#[local] Arguments size_t : simpl never.

Lemma size_t_small : forall z, 0 <= z <= SIZE_MAX -> size_t z = z.
Proof.
  intros z Hz. unfold size_t. apply Z.mod_small. lia.
Qed.

Lemma size_t_minus_one : size_t (0 - 1) = SIZE_MAX.
Proof. reflexivity. Qed.

Lemma size_max_positive : 0 < SIZE_MAX.
Proof. reflexivity. Qed.

(** A decrement of a count other than 1 leaves a positive count: a count of
    0 wraps around to [SIZE_MAX]. *)
Lemma decrement_stays_positive :
  forall z, 0 <= z <= SIZE_MAX -> z <> 1 -> 0 < size_t (z - 1).
Proof.
  intros z Hz Hne.
  destruct (Z.eq_dec z 0) as [-> | Hnz].
  - rewrite size_t_minus_one. apply size_max_positive.
  - rewrite size_t_small; lia.
Qed.

Lemma release_counts_down :
  forall w c,
    mem w = Live c ->
    0 < size_t (ref_count c - 1) ->
    aws_s3_client_release w = Ok tt (with_ref_count (size_t (ref_count c - 1)) c w).
Proof.
  intros [m p e t] c Hlive Hpos. cbn in Hlive. subst m.
  apply Z.ltb_lt in Hpos.
  unfold aws_s3_client_release, aws_atomic_fetch_sub. cbn.
  rewrite Hpos. reflexivity.
Qed.

(** X2. [aws_s3_client_release] on a count other than 1 only stores the
    decremented count: nothing is given back, also when the count was
    already 0, in which case it wraps around to [SIZE_MAX]. *)
Theorem release_only_counts_unless_last :
  forall w c,
    mem w = Live c ->
    0 <= ref_count c <= SIZE_MAX ->
    ref_count c <> 1 ->
    aws_s3_client_release w = Ok tt (with_ref_count (size_t (ref_count c - 1)) c w)
    /\ (ref_count c = 0 -> size_t (ref_count c - 1) = SIZE_MAX).
Proof.
  intros w c Hlive Hrange Hne.
  pose proof (decrement_stays_positive _ Hrange Hne) as Hpos.
  split.
  - exact (release_counts_down w c Hlive Hpos).
  - intros ->. apply size_t_minus_one.
Qed.

Lemma release_only_counts_unless_last_witness :
  aws_s3_client_release
    {| mem := Live (set_ref_count 0 example_client); pool := NoPool;
       last_error := 0; trace := [] |}
  = Ok tt (with_ref_count (size_t (ref_count (set_ref_count 0 example_client) - 1))
             (set_ref_count 0 example_client)
             {| mem := Live (set_ref_count 0 example_client); pool := NoPool;
                last_error := 0; trace := [] |})
  /\ (ref_count (set_ref_count 0 example_client) = 0 ->
      size_t (ref_count (set_ref_count 0 example_client) - 1) = SIZE_MAX).
Proof.
  apply (release_only_counts_unless_last
           {| mem := Live (set_ref_count 0 example_client); pool := NoPool;
              last_error := 0; trace := [] |}
           (set_ref_count 0 example_client)).
  - reflexivity.
  - vm_compute. split; discriminate.
  - vm_compute. discriminate.
Defined.

(** X3. [s_s3_client_dec_shutdown_wait_count] on a count other than 1 only
    stores the decremented count: the block is not released and the user's
    callback is not called, also when the count was already 0, in which case
    it wraps around to [SIZE_MAX]. *)
Theorem dec_shutdown_wait_count_only_counts_unless_last :
  forall w c,
    mem w = Live c ->
    0 <= shutdown_wait_count c <= SIZE_MAX ->
    shutdown_wait_count c <> 1 ->
    s_s3_client_dec_shutdown_wait_count w
    = Ok tt (with_shutdown_wait_count (size_t (shutdown_wait_count c - 1)) c w)
    /\ (shutdown_wait_count c = 0 -> size_t (shutdown_wait_count c - 1) = SIZE_MAX).
Proof.
  intros w c Hlive Hrange Hne.
  pose proof (decrement_stays_positive _ Hrange Hne) as Hpos.
  split.
  - rewrite (dec_shutdown_wait_count_waits w c Hlive Hpos). reflexivity.
  - intros ->. apply size_t_minus_one.
Qed.

Lemma dec_shutdown_wait_count_only_counts_unless_last_witness :
  s_s3_client_dec_shutdown_wait_count
    {| mem := Live (set_shutdown_wait_count 0 example_client); pool := NoPool;
       last_error := 0; trace := [] |}
  = Ok tt (with_shutdown_wait_count
             (size_t (shutdown_wait_count (set_shutdown_wait_count 0 example_client) - 1))
             (set_shutdown_wait_count 0 example_client)
             {| mem := Live (set_shutdown_wait_count 0 example_client); pool := NoPool;
                last_error := 0; trace := [] |})
  /\ (shutdown_wait_count (set_shutdown_wait_count 0 example_client) = 0 ->
      size_t (shutdown_wait_count (set_shutdown_wait_count 0 example_client) - 1)
      = SIZE_MAX).
Proof.
  apply (dec_shutdown_wait_count_only_counts_unless_last
           {| mem := Live (set_shutdown_wait_count 0 example_client); pool := NoPool;
              last_error := 0; trace := [] |}
           (set_shutdown_wait_count 0 example_client)).
  - reflexivity.
  - vm_compute. split; discriminate.
  - vm_compute. discriminate.
Defined.

(** ** Acquire and release compose *)

Lemma with_ref_count_again :
  forall v v' c w, with_ref_count v (set_ref_count v' c) (with_ref_count v' c w)
                   = with_ref_count v c w.
Proof. reflexivity. Qed.

Lemma with_ref_count_same :
  forall c w, mem w = Live c -> with_ref_count (ref_count c) c w = w.
Proof.
  intros [al rc swc cb cp rg ep cm scb sud] [m p e t] Hlive. cbn in Hlive. subst m.
  reflexivity.
Qed.

Lemma acquires_add :
  forall n w c rest,
    mem w = Live c ->
    1 <= ref_count c -> ref_count c + Z.of_nat n <= SIZE_MAX ->
    run (repeat Acquire n ++ rest) w
    = run rest (with_ref_count (ref_count c + Z.of_nat n) c w).
Proof.
  induction n as [|n IH]; intros w c rest Hlive Hlow Hhigh.
  - cbn [repeat app Z.of_nat]. rewrite Z.add_0_r.
    rewrite (with_ref_count_same c w Hlive). reflexivity.
  - destruct w as [m p e t]. cbn in Hlive. subst m.
    cbn [repeat app run enabled mem].
    assert (Hen : (0 <? ref_count c) = true) by (apply Z.ltb_lt; lia).
    rewrite Hen.
    unfold fire, aws_s3_client_acquire, aws_atomic_fetch_add. cbn.
    rewrite (size_t_small (ref_count c + 1)) by lia.
    change {| mem := Live (set_ref_count (ref_count c + 1) c); pool := p;
              last_error := e; trace := t |}
      with (with_ref_count (ref_count c + 1) c
              {| mem := Live c; pool := p; last_error := e; trace := t |}).
    rewrite (IH _ (set_ref_count (ref_count c + 1) c) rest);
      [ | reflexivity | cbn [ref_count set_ref_count]; lia
        | cbn [ref_count set_ref_count]; lia ].
    rewrite with_ref_count_again. cbn [ref_count set_ref_count].
    f_equal. f_equal. lia.
Qed.

Lemma releases_subtract :
  forall n w c rest,
    mem w = Live c ->
    Z.of_nat n < ref_count c -> ref_count c <= SIZE_MAX ->
    run (repeat Release n ++ rest) w
    = run rest (with_ref_count (ref_count c - Z.of_nat n) c w).
Proof.
  induction n as [|n IH]; intros w c rest Hlive Hlow Hhigh.
  - cbn [repeat app Z.of_nat]. rewrite Z.sub_0_r.
    rewrite (with_ref_count_same c w Hlive). reflexivity.
  - destruct w as [m p e t]. cbn in Hlive. subst m.
    cbn [repeat app run enabled mem].
    assert (Hen : (0 <? ref_count c) = true) by (apply Z.ltb_lt; lia).
    rewrite Hen.
    assert (Hrel : fire Release {| mem := Live c; pool := p; last_error := e; trace := t |}
                   = Ok tt (with_ref_count (ref_count c - 1) c
                              {| mem := Live c; pool := p; last_error := e; trace := t |})).
    { cbn [fire].
      rewrite (release_counts_down
                 {| mem := Live c; pool := p; last_error := e; trace := t |} c);
        [ | reflexivity | rewrite size_t_small; lia ].
      rewrite (size_t_small (ref_count c - 1)) by lia. reflexivity. }
    rewrite Hrel.
    rewrite (IH _ (set_ref_count (ref_count c - 1) c) rest);
      [ | reflexivity | cbn [ref_count set_ref_count]; lia
        | cbn [ref_count set_ref_count]; lia ].
    rewrite with_ref_count_again. cbn [ref_count set_ref_count].
    f_equal. f_equal. lia.
Qed.

(** X4. Any number of acquires followed by as many releases leaves the client
    exactly as it was, as long as the count does not overflow. *)
Theorem acquires_then_releases_restore :
  forall n w c,
    mem w = Live c ->
    1 <= ref_count c -> ref_count c + Z.of_nat n <= SIZE_MAX ->
    run (repeat Acquire n ++ repeat Release n) w = Some (Ok tt w).
Proof.
  intros n w c Hlive Hlow Hhigh.
  rewrite (acquires_add n w c _ Hlive Hlow Hhigh).
  rewrite <- (app_nil_r (repeat Release n)).
  rewrite (releases_subtract n _ (set_ref_count (ref_count c + Z.of_nat n) c) []);
    [ | reflexivity | cbn [ref_count set_ref_count]; lia
        | cbn [ref_count set_ref_count]; lia ].
  rewrite with_ref_count_again. cbn [run ref_count set_ref_count].
  replace (ref_count c + Z.of_nat n - Z.of_nat n) with (ref_count c) by lia.
  rewrite (with_ref_count_same c w Hlive). reflexivity.
Qed.

Lemma acquires_then_releases_restore_witness :
  run (repeat Acquire 3 ++ repeat Release 3)
    (world_of (aws_s3_client_new 5 example_config all_succeed initial_world))
  = Some (Ok tt (world_of (aws_s3_client_new 5 example_config all_succeed initial_world))).
Proof.
  apply (acquires_then_releases_restore 3
           (world_of (aws_s3_client_new 5 example_config all_succeed initial_world))
           example_client).
  - reflexivity.
  - vm_compute. discriminate.
  - vm_compute. discriminate.
Defined.

(** ** Inputs for two facts of the life cycle *)

Lemma release_keeps_block_witness :
  exists w' c',
    aws_s3_client_release
      (world_of (aws_s3_client_new 5 example_config all_succeed initial_world))
    = Ok tt w'
    /\ mem w' = Live c'
    /\ ref_count c' = size_t (ref_count example_client - 1)
    /\ shutdown_wait_count c' = shutdown_wait_count example_client
    /\ mem_releases w'
       = mem_releases
           (world_of (aws_s3_client_new 5 example_config all_succeed initial_world)).
Proof.
  apply (release_keeps_block
           (world_of (aws_s3_client_new 5 example_config all_succeed initial_world))
           example_client).
  reflexivity.
Defined.

Lemma client_new_failure_keeps_block_witness :
  exists w c,
    aws_s3_client_new 5 example_config region_fails initial_world = Ok NULL w
    /\ mem w = Live c
    /\ pool w = NoPool
    /\ ref_count c = 0
    /\ shutdown_wait_count c = 0
    /\ mem_releases w = []
    /\ forall a, enabled a w = false.
Proof.
  apply (client_new_failure_keeps_block 5 example_config region_fails 1 2);
    reflexivity.
Defined.

End ClientCounters.

Section ClientLedger.
Import Client.
#[local] Arguments size_t : simpl never.

Lemma outstanding_snoc :
  forall r t e, outstanding r (t ++ [e]) = outstanding r t + delta r e.
Proof.
  intros r t e. unfold outstanding.
  induction t as [|x t IH]; cbn.
  - lia.
  - cbn in IH. rewrite IH. lia.
Qed.

Lemma callback_calls_snoc :
  forall t e, callback_calls (t ++ [e])
              = callback_calls t ++ (if is_callback_call e then [e] else []).
Proof. intros t e. unfold callback_calls. rewrite filter_app. reflexivity. Qed.

Ltac ledger_step Ho :=
  let r := fresh "r" in
  intros r; cbn [trace]; repeat rewrite outstanding_snoc; rewrite (Ho r);
  destruct r; reflexivity.

Ltac callback_step Hc :=
  cbn [trace]; repeat (rewrite callback_calls_snoc; cbn [is_callback_call]);
  rewrite ?app_nil_r; exact Hc.

(** ** Construction *)

(** The state a successful construction leaves. *)
Lemma client_new_success_state :
  forall allocator' cfg plan b p,
    config_client_bootstrap cfg = Some b ->
    config_credentials_provider cfg = Some p ->
    calloc_ok plan = true -> region_ok plan = true ->
    endpoint_ok plan = true -> manager_ok plan = true ->
    aws_s3_client_new allocator' cfg plan initial_world
    = Ok CLIENT
        {| mem := Live {| allocator := allocator'; ref_count := 1;
                          shutdown_wait_count := 1;
                          client_bootstrap := Some b;
                          credentials_provider := Some p;
                          region := Some (config_region cfg);
                          endpoint := Some (config_endpoint cfg);
                          connection_manager :=
                            Some (connection_manager_setup (Some b) (config_endpoint cfg));
                          shutdown_callback := config_shutdown_callback cfg;
                          shutdown_callback_user_data :=
                            config_shutdown_callback_user_data cfg |};
           pool := PoolLive (connection_manager_setup (Some b) (config_endpoint cfg));
           last_error := 0;
           trace := [mem_calloc; provider_acquire p;
                     string_new (config_region cfg); string_new (config_endpoint cfg);
                     manager_new (connection_manager_setup (Some b) (config_endpoint cfg))]
        |}.
Proof.
  intros allocator' cfg plan b p Hb Hp Hc Hr He Hm.
  unfold aws_s3_client_new. rewrite Hb, Hp, Hc, Hr, He, Hm. reflexivity.
Qed.

(** X5. Every construction that returns [NULL] has given back the reference on
    the provider and the strings it made, has no connection manager and has
    not called the user's shutdown callback. *)
Theorem failed_construction_gives_back_provider_and_strings :
  forall allocator' cfg plan w,
    aws_s3_client_new allocator' cfg plan initial_world = Ok NULL w ->
    outstanding ProviderReference (trace w) = 0
    /\ outstanding OwnedString (trace w) = 0
    /\ outstanding ConnectionManagerHandle (trace w) = 0
    /\ pool w = NoPool
    /\ callback_calls (trace w) = [].
Proof.
  intros allocator' cfg [c r e m] w Hnew.
  unfold aws_s3_client_new in Hnew.
  destruct (config_client_bootstrap cfg) as [b|];
    [|injection Hnew as <-; repeat split].
  destruct (config_credentials_provider cfg) as [p|];
    [|injection Hnew as <-; repeat split].
  destruct c; [|injection Hnew as <-; repeat split].
  destruct r; [destruct e; [destruct m|]|];
    vm_compute in Hnew; try discriminate Hnew;
    injection Hnew as <-; repeat split.
Qed.

Lemma failed_construction_gives_back_provider_and_strings_witness :
  outstanding ProviderReference
    (trace (world_of (aws_s3_client_new 5 example_config region_fails initial_world))) = 0
  /\ outstanding OwnedString
       (trace (world_of (aws_s3_client_new 5 example_config region_fails initial_world))) = 0
  /\ outstanding ConnectionManagerHandle
       (trace (world_of (aws_s3_client_new 5 example_config region_fails initial_world))) = 0
  /\ pool (world_of (aws_s3_client_new 5 example_config region_fails initial_world)) = NoPool
  /\ callback_calls
       (trace (world_of (aws_s3_client_new 5 example_config region_fails initial_world))) = [].
Proof.
  apply (failed_construction_gives_back_provider_and_strings
           5 example_config region_fails
           (world_of (aws_s3_client_new 5 example_config region_fails initial_world))).
  vm_compute. reflexivity.
Defined.

(** ** Teardown *)

(** The last release and the connection manager's shutdown, from the state
    a successful construction leaves (whatever the count was in between). *)
Lemma last_release_and_shutdown :
  forall allocator' cfg b p,
    let m := connection_manager_setup (Some b) (config_endpoint cfg) in
    let c := {| allocator := allocator'; ref_count := 1;
                shutdown_wait_count := 1;
                client_bootstrap := Some b;
                credentials_provider := Some p;
                region := Some (config_region cfg);
                endpoint := Some (config_endpoint cfg);
                connection_manager := Some m;
                shutdown_callback := config_shutdown_callback cfg;
                shutdown_callback_user_data :=
                  config_shutdown_callback_user_data cfg |} in
    let block := {| allocator := allocator'; ref_count := 0;
                    shutdown_wait_count := 0;
                    client_bootstrap := Some b;
                    credentials_provider := None;
                    region := None; endpoint := None;
                    connection_manager := None;
                    shutdown_callback := config_shutdown_callback cfg;
                    shutdown_callback_user_data :=
                      config_shutdown_callback_user_data cfg |} in
    forall t,
    run [Release; PoolShutdownComplete]
      {| mem := Live c; pool := PoolLive m; last_error := 0; trace := t |}
    = Some ((match config_shutdown_callback cfg with
             | Some _ => Ok tt
             | None => Fault NullFunctionCall
             end)
              {| mem := Freed; pool := PoolShutDown; last_error := 0;
                 trace := t ++ [provider_release p; manager_release m;
                                string_destroy (config_region cfg);
                                string_destroy (config_endpoint cfg);
                                mem_release block;
                                shutdown_callback_call (config_shutdown_callback cfg)
                                  (config_shutdown_callback_user_data cfg)] |}).
Proof.
  intros allocator' cfg b p m c block t.
  unfold run, enabled, fire, aws_s3_client_release, aws_atomic_fetch_sub,
    shutdown_complete, s_s3_client_connection_manager_shutdown_callback,
    s_s3_client_dec_shutdown_wait_count.
  cbn. change (size_t 0) with 0. cbn. change (size_t 0) with 0. cbn.
  repeat rewrite <- app_assoc. cbn.
  destruct (config_shutdown_callback cfg); reflexivity.
Qed.

(** X7. After a successful construction, any number [n] of further holders
    taking a reference and all [n + 1] holders releasing theirs start the
    shutdown once; when the connection manager then reports its shutdown,
    the provider, the manager, the strings and the block have been given
    back in this order and the user's callback is called last, once, with
    the configured user data.  Without a configured callback that last call
    is the call of a [NULL] pointer. *)
Theorem teardown_after_any_number_of_holders :
  forall allocator' cfg plan b p n,
    config_client_bootstrap cfg = Some b ->
    config_credentials_provider cfg = Some p ->
    calloc_ok plan = true -> region_ok plan = true ->
    endpoint_ok plan = true -> manager_ok plan = true ->
    Z.of_nat n < SIZE_MAX ->
    exists w block,
      run (repeat Acquire n ++ repeat Release (S n) ++ [PoolShutdownComplete])
        (world_of (aws_s3_client_new allocator' cfg plan initial_world))
      = Some ((match config_shutdown_callback cfg with
               | Some _ => Ok tt
               | None => Fault NullFunctionCall
               end) w)
      /\ mem w = Freed
      /\ ref_count block = 0 /\ shutdown_wait_count block = 0
      /\ trace w
         = [mem_calloc; provider_acquire p;
            string_new (config_region cfg); string_new (config_endpoint cfg);
            manager_new (connection_manager_setup (Some b) (config_endpoint cfg));
            provider_release p;
            manager_release (connection_manager_setup (Some b) (config_endpoint cfg));
            string_destroy (config_region cfg); string_destroy (config_endpoint cfg);
            mem_release block;
            shutdown_callback_call (config_shutdown_callback cfg)
              (config_shutdown_callback_user_data cfg)].
Proof.
  intros allocator' cfg plan b p n Hb Hp Hc Hr He Hm Hn.
  rewrite (client_new_success_state allocator' cfg plan b p Hb Hp Hc Hr He Hm).
  cbn [world_of].
  match goal with
  | |- context [run _ ?w0] =>
      match w0 with
      | {| mem := Live ?c0 |} =>
          rewrite (acquires_add n w0 c0);
          [ | reflexivity | cbn [ref_count]; lia | cbn [ref_count]; lia ];
          change (repeat Release (S n)) with (Release :: repeat Release n);
          rewrite repeat_cons, <- app_assoc;
          rewrite (releases_subtract n _ (set_ref_count (ref_count c0 + Z.of_nat n) c0));
          [ | reflexivity | cbn [ref_count set_ref_count]; lia
            | cbn [ref_count set_ref_count]; lia ]
      end
  end.
  rewrite with_ref_count_again. cbn [ref_count set_ref_count].
  replace (1 + Z.of_nat n - Z.of_nat n) with 1 by lia.
  unfold with_ref_count, set_ref_count. cbn [app pool last_error trace allocator
    shutdown_wait_count client_bootstrap credentials_provider region endpoint
    connection_manager shutdown_callback shutdown_callback_user_data].
  rewrite (last_release_and_shutdown allocator' cfg b p).
  eexists; eexists. split; [reflexivity|].
  repeat split; reflexivity.
Qed.

Lemma teardown_after_any_number_of_holders_witness :
  exists w block,
    run (repeat Acquire 2 ++ repeat Release 3 ++ [PoolShutdownComplete])
      (world_of (aws_s3_client_new 5 example_config all_succeed initial_world))
    = Some ((match config_shutdown_callback example_config with
             | Some _ => Ok tt
             | None => Fault NullFunctionCall
             end) w)
    /\ mem w = Freed
    /\ ref_count block = 0 /\ shutdown_wait_count block = 0
    /\ trace w
       = [mem_calloc; provider_acquire 2;
          string_new (config_region example_config);
          string_new (config_endpoint example_config);
          manager_new (connection_manager_setup (Some 1) (config_endpoint example_config));
          provider_release 2;
          manager_release (connection_manager_setup (Some 1)
                             (config_endpoint example_config));
          string_destroy (config_region example_config);
          string_destroy (config_endpoint example_config);
          mem_release block;
          shutdown_callback_call (config_shutdown_callback example_config)
            (config_shutdown_callback_user_data example_config)].
Proof.
  apply (teardown_after_any_number_of_holders 5 example_config all_succeed 1 2 2%nat);
    try reflexivity.
Defined.

(** X8. A client whose configuration has no shutdown callback is constructed
    all the same, and its teardown ends in the call of a [NULL] function
    pointer, after the block was released. *)
Theorem teardown_without_callback_calls_null :
  forall allocator' cfg plan b p,
    config_client_bootstrap cfg = Some b ->
    config_credentials_provider cfg = Some p ->
    calloc_ok plan = true -> region_ok plan = true ->
    endpoint_ok plan = true -> manager_ok plan = true ->
    config_shutdown_callback cfg = None ->
    exists w0 w,
      aws_s3_client_new allocator' cfg plan initial_world = Ok CLIENT w0
      /\ run teardown w0 = Some (Fault NullFunctionCall w)
      /\ mem w = Freed
      /\ callback_calls (trace w)
         = [shutdown_callback_call None (config_shutdown_callback_user_data cfg)].
Proof.
  intros allocator' cfg plan b p Hb Hp Hc Hr He Hm Hnone.
  rewrite (client_new_success_state allocator' cfg plan b p Hb Hp Hc Hr He Hm).
  eexists; eexists. split; [reflexivity|].
  unfold teardown. rewrite (last_release_and_shutdown allocator' cfg b p).
  rewrite Hnone. repeat split.
Qed.

Lemma teardown_without_callback_calls_null_witness :
  exists w0 w,
    aws_s3_client_new 5 config_without_callback all_succeed initial_world = Ok CLIENT w0
    /\ run teardown w0 = Some (Fault NullFunctionCall w)
    /\ mem w = Freed
    /\ callback_calls (trace w)
       = [shutdown_callback_call None
            (config_shutdown_callback_user_data config_without_callback)].
Proof.
  apply (teardown_without_callback_calls_null 5 config_without_callback all_succeed 1 2);
    reflexivity.
Defined.

(** ** Every schedule *)

Lemma audited_after_new :
  forall allocator' cfg plan,
    audited cfg (world_of (aws_s3_client_new allocator' cfg plan initial_world))
    /\ mem (world_of (aws_s3_client_new allocator' cfg plan initial_world)) <> Freed.
Proof.
  intros allocator' cfg [c r e m].
  unfold aws_s3_client_new.
  destruct (config_client_bootstrap cfg) as [b|] eqn:Hb;
    [|split; [apply audited_no_client; try reflexivity; intros []; reflexivity
             | discriminate]].
  destruct (config_credentials_provider cfg) as [p|] eqn:Hp;
    [|split; [apply audited_no_client; try reflexivity; intros []; reflexivity
             | discriminate]].
  destruct c;
    [|split; [apply audited_no_client; try reflexivity; intros []; reflexivity
             | discriminate]].
  destruct r; [destruct e; [destruct m|]|].
  - split; [|vm_compute; discriminate].
    eapply audited_in_use; try (vm_compute; reflexivity).
    + split; reflexivity.
    + vm_compute. discriminate.
    + vm_compute. discriminate.
    + vm_compute. discriminate.
    + intros []; vm_compute; reflexivity.
  - split; [|vm_compute; discriminate].
    eapply audited_abandoned; try (vm_compute; reflexivity).
    intros []; vm_compute; reflexivity.
  - split; [|vm_compute; discriminate].
    eapply audited_abandoned; try (vm_compute; reflexivity).
    intros []; vm_compute; reflexivity.
  - split; [|vm_compute; discriminate].
    eapply audited_abandoned; try (vm_compute; reflexivity).
    intros []; vm_compute; reflexivity.
Qed.

Lemma audited_step :
  forall cfg a w,
    audited cfg w -> enabled a w = true ->
    audited cfg (world_of (fire a w)) /\ ends_well cfg (fire a w).
Proof.
  intros cfg a [m p le t] Haud Hen.
  destruct Haud as [Hm Hp Ho Hcc | c Hm Hp Hc Ho Hcc
                   | c mg Hm Hp Hcb Hmg Hcp Hrg Hep Hscb Hsud Hs Ho Hcc
                   | c mg Hm Hp Hcb Hc Hs Hscb Hsud Ho Hcc
                   | before Hm Hp Ho Ht Hcc];
    try destruct c as [al rc swc cb cp rg ep cm scb sud];
    cbn [mem pool trace ref_count shutdown_wait_count connection_manager
         credentials_provider region endpoint shutdown_callback
         shutdown_callback_user_data] in *; subst.
  - destruct a; discriminate Hen.
  - destruct a; discriminate Hen.
  - destruct a; [ | | discriminate Hen].
    + (* acquire *)
      split; [|cbn; discriminate].
      eapply audited_in_use with (m := mg); try reflexivity; assumption.
    + (* release *)
      unfold fire, aws_s3_client_release, aws_atomic_fetch_sub. cbn.
      destruct (0 <? size_t (rc - 1)) eqn:Hpos.
      * split; [|cbn; discriminate].
        eapply audited_in_use with (m := mg); try reflexivity; assumption.
      * apply zero_of_not_positive in Hpos.
        destruct cp as [pr|]; [|contradiction].
        destruct rg as [rs|]; [|contradiction].
        destruct ep as [es|]; [|contradiction].
        cbn. split; [|cbn; discriminate].
        eapply audited_shutting_down with (m := mg);
          [ reflexivity | reflexivity | exact Hcb | exact Hpos | reflexivity
          | reflexivity | reflexivity | ledger_step Ho | callback_step Hcc ].
  - destruct a; [discriminate Hen | discriminate Hen | ].
    destruct Hcb as [Hfn Hud].
    unfold fire, shutdown_complete. cbn. rewrite Hfn, Hud.
    unfold s_s3_client_connection_manager_shutdown_callback,
      s_s3_client_dec_shutdown_wait_count, aws_atomic_fetch_sub.
    cbn. change (size_t 0) with 0. cbn.
    destruct (config_shutdown_callback cfg) as [fn|] eqn:Hfnc; cbn.
    + split; [|unfold ends_well; intros _; rewrite Hfnc; discriminate].
      eapply audited_released; try reflexivity.
      * ledger_step Ho.
      * cbn [trace]. rewrite Hfnc. reflexivity.
      * callback_step Hcc.
    + split; [|unfold ends_well; repeat split; exact Hfnc].
      eapply audited_released; try reflexivity.
      * ledger_step Ho.
      * cbn [trace]. rewrite Hfnc. reflexivity.
      * callback_step Hcc.
  - destruct a; discriminate Hen.
Qed.

(** ** Every schedule, with the release followed statement by statement *)

(** The part up to line 181 followed by the statements from line 182 on is
    [aws_s3_client_release]. *)
Lemma release_statement_by_statement_is_release :
  forall w, release_statement_by_statement w = aws_s3_client_release w.
Proof.
  intros [m p le t]. destruct m as [| c |]; try reflexivity.
  destruct c as [al rc swc cb cp rg ep cm scb sud].
  unfold release_statement_by_statement, release_to_manager_release,
    aws_s3_client_release, aws_atomic_fetch_sub, bind at 1 2 3 4 5.
  cbn.
  destruct (0 <? size_t (rc - 1)); [reflexivity|].
  destruct cp, cm, rg, ep; reflexivity.
Qed.

Lemma ends_well_fine :
  forall cfg o s, ends_well cfg o -> fine_ends cfg o s.
Proof.
  intros cfg [[] w | f w] s H; cbn; [exact I | left; exact H].
Qed.

Lemma callback_calls_snoc_call :
  forall t fn ud, callback_calls (t ++ [shutdown_callback_call fn ud]) <> [].
Proof.
  intros t fn ud. rewrite callback_calls_snoc. cbn.
  destruct (callback_calls t); discriminate.
Qed.

Lemma fine_audited_step :
  forall cfg a w s,
    fine_audited cfg w s ->
    fine_enabled a {| shared := w; suspended := s |} = true ->
    fine_audited cfg
      (world_of (fst (fine_fire a {| shared := w; suspended := s |})))
      (snd (fine_fire a {| shared := w; suspended := s |}))
    /\ fine_ends cfg
         (fst (fine_fire a {| shared := w; suspended := s |}))
         (snd (fine_fire a {| shared := w; suspended := s |})).
Proof.
  intros cfg a w s Hinv Hen.
  destruct Hinv as [Hs Haud
                   | p c mg Hs Hm Hp Hcb Hc Hswc Hscb Hsud Hf Ho Hcc
                   | p Hs Hm Hp Hcc]; subst s.
  - (* no release is suspended *)
    destruct a; cbn [fine_enabled fine_fire shared suspended fst snd] in *.
    + destruct (audited_step cfg Acquire w Haud Hen) as [Haud' Hwell].
      split; [apply fine_settled; [reflexivity | exact Haud']
             | apply ends_well_fine; exact Hwell].
    + destruct w as [m p le t].
      destruct Haud as [Hm Hp Ho Hcc | c Hm Hp Hc Ho Hcc
                       | c mg Hm Hp Hcb Hmg Hcp Hrg Hep Hscb Hsud Hswc Ho Hcc
                       | c mg Hm Hp Hcb Hc Hswc Hscb Hsud Ho Hcc
                       | before Hm Hp Ho Ht Hcc];
        try destruct c as [al rc swc cb cp rg ep cm scb sud];
        cbn [mem pool trace ref_count shutdown_wait_count connection_manager
             credentials_provider region endpoint shutdown_callback
             shutdown_callback_user_data enabled] in *; subst;
        try discriminate Hen.
      unfold release_to_manager_release, aws_atomic_fetch_sub. cbn.
      destruct (0 <? size_t (rc - 1)) eqn:Hpos.
      * cbn. split; [|exact I].
        apply fine_settled; [reflexivity|].
        eapply audited_in_use with (m := mg); try reflexivity; assumption.
      * apply zero_of_not_positive in Hpos.
        destruct cp as [pr|]; [|contradiction].
        cbn. split; [|exact I].
        eapply fine_suspended with (p := L182) (m := mg);
          [ reflexivity | reflexivity | reflexivity | exact Hcb | exact Hpos
          | reflexivity | reflexivity | reflexivity | split; assumption
          | ledger_step Ho | callback_step Hcc ].
    + discriminate Hen.
    + destruct (audited_step cfg PoolShutdownComplete w Haud Hen) as [Haud' Hwell].
      split; [apply fine_settled; [reflexivity | exact Haud']
             | apply ends_well_fine; exact Hwell].
  - (* a release is suspended and the block is live *)
    destruct w as [m pl le t].
    destruct c as [al rc swc cb cp rg ep cm scb sud].
    cbn [mem pool trace ref_count shutdown_wait_count connection_manager
         credentials_provider region endpoint shutdown_callback
         shutdown_callback_user_data] in *; subst.
    destruct a; cbn [fine_enabled fine_fire shared suspended enabled mem pool
                     ref_count] in *;
      try discriminate Hen.
    + (* the release goes on *)
      destruct p; cbn in Hf |- *.
      * split; [|exact I].
        eapply fine_suspended with (p := L185) (m := mg);
          try reflexivity; try assumption.
      * destruct Hf as [Hrg Hep]. destruct rg as [rs|]; [|contradiction].
        cbn. split; [|exact I].
        eapply fine_suspended with (p := L186) (m := mg);
          try reflexivity; try assumption. split; assumption.
      * destruct Hf as [Hrg Hep]. destruct rg as [rs|]; [|contradiction].
        cbn. split; [|exact I].
        eapply fine_suspended with (p := L187) (m := mg);
          [ reflexivity | reflexivity | reflexivity | exact Hcb | reflexivity
          | reflexivity | reflexivity | reflexivity | exact Hep
          | ledger_step Ho | callback_step Hcc ].
      * split; [|exact I].
        eapply fine_suspended with (p := L190) (m := mg);
          try reflexivity; try assumption.
      * destruct ep as [es|]; [|contradiction].
        cbn. split; [|exact I].
        eapply fine_suspended with (p := L191) (m := mg);
          try reflexivity; try assumption.
      * destruct ep as [es|]; [|contradiction].
        cbn. split; [|exact I].
        eapply fine_suspended with (p := L192) (m := mg);
          [ reflexivity | reflexivity | reflexivity | exact Hcb | reflexivity
          | reflexivity | reflexivity | reflexivity | exact I
          | ledger_step Ho | callback_step Hcc ].
      * split; [|exact I].
        apply fine_settled; [reflexivity|].
        eapply audited_shutting_down with (m := mg);
          try reflexivity; try assumption.
    + (* the manager's shutdown callback overtakes it *)
      destruct Hcb as [Hfn Hud].
      unfold fire, shutdown_complete. cbn. rewrite Hfn, Hud.
      unfold s_s3_client_connection_manager_shutdown_callback,
        s_s3_client_dec_shutdown_wait_count, aws_atomic_fetch_sub.
      cbn. change (size_t 0) with 0. cbn.
      destruct (config_shutdown_callback cfg) as [fn|] eqn:Hfnc; cbn.
      * split; [|exact I].
        eapply fine_overtaken with (p := p); try reflexivity.
        cbn [trace]. apply callback_calls_snoc_call.
      * split; [|left; split; [reflexivity | split; [exact Hfnc | reflexivity]]].
        eapply fine_overtaken with (p := p); try reflexivity.
        cbn [trace]. apply callback_calls_snoc_call.
  - (* the callback has overtaken a suspended release *)
    destruct w as [m pl le t].
    cbn [mem pool trace] in *; subst.
    destruct a; cbn [fine_enabled fine_fire shared suspended enabled mem pool] in *;
      try discriminate Hen.
    assert (Hfault : resume p {| mem := Freed; pool := PoolShutDown;
                                 last_error := le; trace := t |}
                     = Fault UseAfterFree {| mem := Freed; pool := PoolShutDown;
                                             last_error := le; trace := t |})
      by (destruct p; reflexivity).
    rewrite Hfault. cbn.
    split.
    + eapply fine_overtaken with (p := p); try reflexivity. exact Hcc.
    + right. repeat split; [discriminate | exact Hcc].
Qed.

Lemma fine_audited_run :
  forall cfg schedule w s o s',
    fine_audited cfg w s ->
    fine_run schedule {| shared := w; suspended := s |} = Some (o, s') ->
    fine_audited cfg (world_of o) s' /\ fine_ends cfg o s'.
Proof.
  intros cfg schedule.
  induction schedule as [|a rest IH]; intros w s o s' Hinv Hrun;
    cbn [fine_run] in Hrun.
  - cbn in Hrun. injection Hrun as <- <-. split; [exact Hinv | exact I].
  - destruct (fine_enabled a {| shared := w; suspended := s |}) eqn:Hen;
      [|discriminate Hrun].
    destruct (fine_audited_step cfg a w s Hinv Hen) as [Hinv' Hend].
    destruct (fine_fire a {| shared := w; suspended := s |}) as [[[] w' | f w'] s1].
    + eapply IH; [exact Hinv' | exact Hrun].
    + destruct rest; [|discriminate Hrun].
      injection Hrun as <- <-. split; assumption.
Qed.

Lemma fine_audited_after_new :
  forall allocator' cfg plan,
    fine_audited cfg
      (world_of (aws_s3_client_new allocator' cfg plan initial_world)) None.
Proof.
  intros allocator' cfg plan. apply fine_settled; [reflexivity|].
  apply audited_after_new.
Qed.

(** X9. With [aws_s3_client_release] followed statement by statement after
    its call of [aws_http_connection_manager_release], a run of acquires,
    releases and the manager's shutdown can fault in two ways only: by the
    call of a shutdown callback that the configuration left [NULL], made
    after the block was released; or by a release which, overtaken between
    lines 182 and 193 by the manager's shutdown callback, goes on reading
    and writing the block that the callback has released. *)
Theorem runs_fault_only_on_null_callback_or_overtaken_release :
  forall allocator' cfg plan schedule f w s,
    fine_run schedule
      (fine_start (world_of (aws_s3_client_new allocator' cfg plan initial_world)))
    = Some (Fault f w, s) ->
    (f = NullFunctionCall /\ config_shutdown_callback cfg = None /\ mem w = Freed)
    \/ (f = UseAfterFree /\ s <> None /\ mem w = Freed
        /\ callback_calls (trace w) <> []).
Proof.
  intros allocator' cfg plan schedule f w s Hrun.
  exact (proj2 (fine_audited_run cfg schedule _ None _ s
                  (fine_audited_after_new allocator' cfg plan) Hrun)).
Qed.

(** X10. In every such run the user's shutdown callback is not called while
    the block is not released; and where the run ends with the block
    released and no release overtaken, everything the client acquired since
    its construction has been given back, and the callback, with the
    configured user data, is the last thing that happened and was called
    once. *)
Theorem callback_last_and_nothing_left_unless_overtaken :
  forall allocator' cfg plan schedule o s,
    fine_run schedule
      (fine_start (world_of (aws_s3_client_new allocator' cfg plan initial_world)))
    = Some (o, s) ->
    (mem (world_of o) <> Freed -> callback_calls (trace (world_of o)) = [])
    /\ (s = None -> mem (world_of o) = Freed ->
        (forall r, outstanding r (trace (world_of o)) = 0)
        /\ exists before,
            trace (world_of o)
            = before ++ [shutdown_callback_call (config_shutdown_callback cfg)
                           (config_shutdown_callback_user_data cfg)]
            /\ callback_calls before = []).
Proof.
  intros allocator' cfg plan schedule o s Hrun.
  destruct (fine_audited_run cfg schedule _ None o s
              (fine_audited_after_new allocator' cfg plan) Hrun) as [Hend _].
  destruct Hend as [Hs Haud
                   | p c mg Hs Hm Hp Hcb Hc Hswc Hscb Hsud Hf Ho Hcc
                   | p Hs Hm Hp Hcc].
  - destruct Haud as [Hm Hp Ho Hcc | c Hm Hp Hc Ho Hcc
                     | c mg Hm Hp Hcb Hmg Hcp Hrg Hep Hscb Hsud Hswc Ho Hcc
                     | c mg Hm Hp Hcb Hc Hswc Hscb Hsud Ho Hcc
                     | before Hm Hp Ho Ht Hcc].
    1-4: split; [intros _; exact Hcc
                | intros _ Hfr; rewrite Hm in Hfr; discriminate Hfr].
    split.
    + intros Hne. contradiction.
    + intros _ _. split; [exact Ho|]. exists before. split; assumption.
  - split; [intros _; exact Hcc | intros Hnone; rewrite Hs in Hnone; discriminate Hnone].
  - split; [intros Hne; contradiction
           | intros Hnone; rewrite Hs in Hnone; discriminate Hnone].
Qed.

(** X15. The second way is open to every client that was constructed: when
    the last release has called [aws_http_connection_manager_release] and
    the manager's shutdown callback runs before the release goes on, the
    callback releases the block and calls the user's callback, and the next
    statement of the release (line 182) writes to the released block. *)
Theorem overtaken_release_uses_released_block :
  forall allocator' cfg plan b p fn,
    config_client_bootstrap cfg = Some b ->
    config_credentials_provider cfg = Some p ->
    config_shutdown_callback cfg = Some fn ->
    calloc_ok plan = true -> region_ok plan = true ->
    endpoint_ok plan = true -> manager_ok plan = true ->
    exists w,
      fine_run overtaken_release
        (fine_start (world_of (aws_s3_client_new allocator' cfg plan initial_world)))
      = Some (Fault UseAfterFree w, Some L182)
      /\ mem w = Freed
      /\ callback_calls (trace w)
         = [shutdown_callback_call (Some fn) (config_shutdown_callback_user_data cfg)]
      /\ outstanding OwnedString (trace w) = 2.
Proof.
  intros allocator' cfg plan b p fn Hb Hp Hfn Hc Hr He Hm.
  rewrite (client_new_success_state allocator' cfg plan b p Hb Hp Hc Hr He Hm).
  unfold overtaken_release, fine_start. cbn [world_of].
  cbn [fine_run fine_enabled shared suspended enabled mem ref_count].
  change (0 <? 1) with true. cbn iota.
  unfold fine_fire at 1. cbn [shared suspended].
  unfold release_to_manager_release, aws_atomic_fetch_sub. cbn.
  change (size_t (1 - 1)) with 0. cbn.
  unfold s_s3_client_connection_manager_shutdown_callback,
    s_s3_client_dec_shutdown_wait_count, aws_atomic_fetch_sub.
  cbn. change (size_t (1 - 1)) with 0. cbn.
  rewrite Hfn. cbn.
  eexists. split; [reflexivity|].
  split; [reflexivity|]. split; reflexivity.
Qed.

Lemma runs_fault_only_on_null_callback_or_overtaken_release_witness :
  (UseAfterFree = NullFunctionCall
   /\ config_shutdown_callback example_config = None
   /\ mem (world_of (fst (fine_outcome_after example_config overtaken_release))) = Freed)
  \/ (UseAfterFree = UseAfterFree /\ Some L182 <> None
      /\ mem (world_of (fst (fine_outcome_after example_config overtaken_release))) = Freed
      /\ callback_calls
           (trace (world_of (fst (fine_outcome_after example_config overtaken_release))))
         <> []).
Proof.
  apply (runs_fault_only_on_null_callback_or_overtaken_release
           5 example_config all_succeed overtaken_release).
  vm_compute. reflexivity.
Defined.

Lemma callback_last_and_nothing_left_unless_overtaken_witness :
  (mem (world_of (fst (fine_outcome_after example_config orderly_release))) <> Freed ->
   callback_calls
     (trace (world_of (fst (fine_outcome_after example_config orderly_release)))) = [])
  /\ (@None release_point = None ->
      mem (world_of (fst (fine_outcome_after example_config orderly_release))) = Freed ->
      (forall r,
          outstanding r
            (trace (world_of (fst (fine_outcome_after example_config orderly_release))))
          = 0)
      /\ exists before,
          trace (world_of (fst (fine_outcome_after example_config orderly_release)))
          = before ++ [shutdown_callback_call (config_shutdown_callback example_config)
                         (config_shutdown_callback_user_data example_config)]
          /\ callback_calls before = []).
Proof.
  apply (callback_last_and_nothing_left_unless_overtaken
           5 example_config all_succeed orderly_release).
  vm_compute. reflexivity.
Defined.

Lemma overtaken_release_uses_released_block_witness :
  exists w,
    fine_run overtaken_release
      (fine_start (world_of (aws_s3_client_new 5 example_config all_succeed initial_world)))
    = Some (Fault UseAfterFree w, Some L182)
    /\ mem w = Freed
    /\ callback_calls (trace w)
       = [shutdown_callback_call (Some 7)
            (config_shutdown_callback_user_data example_config)]
    /\ outstanding OwnedString (trace w) = 2.
Proof.
  apply (overtaken_release_uses_released_block 5 example_config all_succeed 1 2 7);
    reflexivity.
Defined.

End ClientLedger.

(** * More on the pipeline: what the Request object is told *)

Section PipelineNotifications.
Import Pipeline.
Context {R : Type} `{RequestObject R}.
#[local] Arguments finish_codes !l : simpl nomatch.
#[local] Arguments stream_complete_codes !l : simpl nomatch.
#[local] Arguments notifications !l : simpl nomatch.

Lemma notifications_snoc :
  forall l c, notifications (l ++ [c]) = notifications l ++ notifications [c].
Proof. intros l c. unfold notifications. apply filter_app. Qed.

Ltac notify_step :=
  cbn [calls call_finish call_stream_complete set_request log returned set_holder
       set_last_error set_checked_out check_out
       call_incoming_headers call_incoming_header_block_done call_incoming_body
       s_s3_client_incoming_headers s_s3_client_incoming_header_block_done
       s_s3_client_incoming_body s_s3_client_stream_complete snd fst];
  repeat (rewrite notifications_snoc; cbn [notifications filter is_notification]);
  rewrite ?app_nil_r, <- ?app_assoc; cbn [app].

(** ** The entry point *)

(** X11. For a client whose region string is there (the function reads
    [client->region->bytes]), [s3_client_make_request] returns success
    exactly when the signable was made and the signer took the request, and
    only then is the signing completion left with the signer.  The signer is
    called exactly when the signable was made; the signable made stays in
    the request also when the signer refuses; and the Request object is told
    nothing in any case. *)
Theorem make_request_outcome :
  forall client' now new_signable sign (rq : aws_s3_request R),
    Client.region client' <> None ->
    let rc := fst (s3_client_make_request client' now new_signable sign (fresh rq)) in
    let w := snd (s3_client_make_request client' now new_signable sign (fresh rq)) in
    (rc = AWS_OP_SUCCESS \/ rc = AWS_OP_ERR)
    /\ (rc = AWS_OP_SUCCESS <->
        (exists s, new_signable = Succeeds s) /\ (exists u, sign = Succeeds u))
    /\ (rc = AWS_OP_SUCCESS <-> holder w = Signer s_s3_client_signing_complete_fn)
    /\ (rc = AWS_OP_ERR <-> holder w = Nobody)
    /\ ((exists s config, In (sign_request_aws s config s_s3_client_signing_complete_fn)
                            (calls w))
        <-> exists s, new_signable = Succeeds s)
    /\ signable (request w)
       = match new_signable with Succeeds s => Some s | Fails _ => None end
    /\ notifications (calls w) = [].
Proof.
  intros client' now new_signable sign rq Hregion.
  unfold s3_client_make_request.
  destruct new_signable as [s|e]; [destruct sign as [u|e]|]; cbn.
  all: repeat split; try (intros; discriminate); eauto.
  - intros [_ [u Hu]]. discriminate Hu.
  - intros [[s Hs] _]. discriminate Hs.
  - intros [s [config [Hin | []]]]. discriminate Hin.
  - intros [s Hs]. discriminate Hs.
Qed.

(** ** Every event *)

Lemma start_tells_nothing :
  forall client' now new_signable sign (rq : aws_s3_request R),
    notifications
      (calls (snd (s3_client_make_request client' now new_signable sign (fresh rq)))) = []
    /\ finish_codes
         (calls (snd (s3_client_make_request client' now new_signable sign (fresh rq)))) = [].
Proof.
  intros client' now new_signable sign rq.
  unfold s3_client_make_request.
  destruct new_signable as [s|e]; [destruct sign as [u|e]|]; split; reflexivity.
Qed.

Lemma delivered_notifications :
  forall s e (w w' : world R),
    pipeline_invariant s w -> deliver e w = Some w' ->
    notifications (calls w') = notifications (calls w) ++ notifications_of e.
Proof.
  intros s e [rq h co le cs] w' Hinv Hdel.
  destruct Hinv as [Hh _ _ _ _ | st o Hh [Ho1 [Ho2 [Ho3 Ho4]]] _ _ _ | code Hh _ _];
    cbn [holder] in Hh.
  - destruct Hh as [-> | ->]; destruct e; cbn in Hdel; try discriminate Hdel;
      injection Hdel as <-.
    + unfold s_s3_client_signing_complete, notifications_of, stage_fails, failure_code.
      destruct (error_code =? AWS_OP_SUCCESS); cbn [negb orb].
      * destruct apply as [[]|a]; notify_step; reflexivity.
      * notify_step. reflexivity.
    + unfold s_s3_client_on_acquire_connection, notifications_of, stage_fails,
        failure_code.
      destruct connection as [c|];
        (destruct (error_code =? AWS_ERROR_SUCCESS); cbn [negb orb];
         [ destruct make as [st|m];
           [ destruct activate as [[]|a] | ] | ];
         cbn [stream request set_request set_stream returned log set_last_error
              aws_last_error last_error];
         notify_step; reflexivity).
  - subst h. destruct e; cbn in Hdel; rewrite ?Ho1, ?Ho2, ?Ho3, ?Ho4 in Hdel;
      try discriminate Hdel; injection Hdel as <-;
      unfold notifications_of; notify_step; reflexivity.
  - subst h. destruct e; discriminate Hdel.
Qed.

(** X12. What the Request object is told in a run is determined by the events,
    one after the other and in their order: each response event is passed on
    as the one notification of its kind, with its arguments; the completion
    of the exchange gives [stream_complete] and then [finish] with its code;
    a failing signing or acquisition event gives [finish] with the code of
    the failure; an event that succeeds gives nothing.  Nothing is held
    back, repeated, reordered or added. *)
Theorem notifications_follow_events :
  forall client' now new_signable sign (rq : aws_s3_request R) rc w0 events w,
    s3_client_make_request client' now new_signable sign (fresh rq) = (rc, w0) ->
    run events w0 = Some w ->
    notifications (calls w) = flat_map notifications_of events.
Proof.
  intros client' now new_signable sign rq rc w0 events w Hstart Hrun.
  pose proof (start_tells_nothing client' now new_signable sign rq) as [Hnone _].
  rewrite Hstart in Hnone. cbn [snd] in Hnone.
  destruct (Z.eq_dec rc AWS_OP_SUCCESS) as [-> | Hrc].
  - destruct (invariant_after_start _ _ _ _ _ _ Hstart) as [s [_ Hinv]].
    clear Hstart.
    assert (Hgen : forall events (w0 w : world R),
               pipeline_invariant s w0 -> run events w0 = Some w ->
               notifications (calls w)
               = notifications (calls w0) ++ flat_map notifications_of events).
    { clear. intros events.
      induction events as [|e rest IH]; intros w0 w Hinv Hrun; cbn in Hrun.
      - injection Hrun as <-. cbn. rewrite app_nil_r. reflexivity.
      - destruct (deliver e w0) as [w1|] eqn:Hdel; [|discriminate Hrun].
        rewrite (IH w1 w (invariant_delivered _ _ _ _ Hinv Hdel) Hrun).
        rewrite (delivered_notifications _ _ _ _ Hinv Hdel).
        cbn [flat_map]. rewrite app_assoc. reflexivity. }
    rewrite (Hgen events w0 w Hinv Hrun), Hnone. reflexivity.
  - destruct (rejected_start _ _ _ _ _ _ _ Hstart Hrc) as [_ [Hh _]].
    destruct (run_nobody _ _ _ Hh Hrun) as [-> ->].
    exact Hnone.
Qed.

(** ** Finish is final *)

Lemma delivered_finish_is_last :
  forall s e (w w' : world R),
    pipeline_invariant s w -> deliver e w = Some w' ->
    finish_codes (calls w') <> [] ->
    exists before code, calls w' = before ++ [request_finish code].
Proof.
  intros s e [rq h co le cs] w' Hinv Hdel Hfin.
  destruct Hinv as [Hh _ _ Hf _ | st o Hh [Ho1 [Ho2 [Ho3 Ho4]]] _ Hf _ | code Hh _ _];
    cbn [holder calls] in *.
  - destruct Hh as [-> | ->]; destruct e; cbn in Hdel; try discriminate Hdel;
      injection Hdel as <-.
    + revert Hfin. unfold s_s3_client_signing_complete.
      destruct (error_code =? AWS_OP_SUCCESS).
      * destruct apply as [[]|a]; cbn; intros Hfin.
        -- contradiction Hfin.
           repeat (rewrite finish_codes_snoc; cbn). rewrite Hf. reflexivity.
        -- eexists; eexists. reflexivity.
      * cbn. intros _. eexists; eexists. reflexivity.
    + revert Hfin. unfold s_s3_client_on_acquire_connection.
      destruct connection as [c|];
        (destruct (error_code =? AWS_ERROR_SUCCESS);
         [ destruct make as [st|m];
           [ destruct activate as [[]|a];
             [ cbn; intros Hfin; contradiction Hfin;
               repeat (rewrite finish_codes_snoc; cbn); rewrite Hf; reflexivity
             | cbn; intros _; eexists; eexists; reflexivity ]
           | cbn; intros _; eexists; eexists; reflexivity ]
         | cbn; intros _; eexists; eexists; reflexivity ]).
  - subst h. destruct e; cbn in Hdel; rewrite ?Ho1, ?Ho2, ?Ho3, ?Ho4 in Hdel;
      try discriminate Hdel; injection Hdel as <-.
    + contradiction Hfin. cbn. rewrite finish_codes_snoc. cbn. rewrite Hf. reflexivity.
    + contradiction Hfin. cbn. rewrite finish_codes_snoc. cbn. rewrite Hf. reflexivity.
    + contradiction Hfin. cbn. rewrite finish_codes_snoc. cbn. rewrite Hf. reflexivity.
    + eexists; eexists. cbn. reflexivity.
  - subst h. destruct e; discriminate Hdel.
Qed.

(** X13. Once [finish] has been called for a request, it is the last call the
    pipeline made for it, and no event of any collaborator is delivered to
    the request any more. *)
Theorem finish_is_final :
  forall client' now new_signable sign (rq : aws_s3_request R) rc w0 events w,
    s3_client_make_request client' now new_signable sign (fresh rq) = (rc, w0) ->
    run events w0 = Some w ->
    finish_codes (calls w) <> [] ->
    (exists before code, calls w = before ++ [request_finish code])
    /\ forall e, deliver e w = None.
Proof.
  intros client' now new_signable sign rq rc w0 events w Hstart Hrun Hfin.
  pose proof (start_tells_nothing client' now new_signable sign rq) as [_ Hnone].
  rewrite Hstart in Hnone. cbn [snd] in Hnone.
  destruct (Z.eq_dec rc AWS_OP_SUCCESS) as [-> | Hrc].
  - destruct (invariant_after_start _ _ _ _ _ _ Hstart) as [s [_ Hinv]].
    clear Hstart.
    split.
    + assert (Hgen : forall events (w0 w : world R),
                 pipeline_invariant s w0 ->
                 (finish_codes (calls w0) <> [] ->
                  exists before code, calls w0 = before ++ [request_finish code]) ->
                 run events w0 = Some w ->
                 finish_codes (calls w) <> [] ->
                 exists before code, calls w = before ++ [request_finish code]).
      { clear. intros events.
        induction events as [|e rest IH]; intros w0 w Hinv Hlast Hrun Hfin;
          cbn in Hrun.
        - injection Hrun as <-. exact (Hlast Hfin).
        - destruct (deliver e w0) as [w1|] eqn:Hdel; [|discriminate Hrun].
          eapply (IH w1 w); try eassumption.
          + eapply invariant_delivered; eassumption.
          + eapply delivered_finish_is_last; eassumption. }
      eapply (Hgen events w0 w); try eassumption.
      intros Hne. rewrite Hnone in Hne. contradiction Hne. reflexivity.
    + pose proof (invariant_along_events _ _ _ _ Hinv Hrun) as Hend.
      destruct Hend as [_ _ _ Hf _ | st o _ _ _ Hf _ | code Hh _ _].
      * contradiction.
      * contradiction.
      * intros e. apply deliver_nobody. exact Hh.
  - destruct (rejected_start _ _ _ _ _ _ _ Hstart Hrc) as [_ [Hh _]].
    destruct (run_nobody _ _ _ Hh Hrun) as [-> ->].
    rewrite Hnone in Hfin. contradiction Hfin. reflexivity.
Qed.

(** ** Acquisition failure *)

(** X14. Scenario B for every code: when signing succeeded and the connection
    manager reports a nonzero code, the callback calls [finish] with that
    code and nothing else; no request is made on a connection and no stream
    is activated, whatever the manager passed as connection. *)
Theorem acquisition_failure_only_finishes :
  forall client' now s sign (rq : aws_s3_request R) w0
         result connection error_code make activate,
    s3_client_make_request client' now (Succeeds s) sign (fresh rq) = (AWS_OP_SUCCESS, w0) ->
    error_code <> AWS_ERROR_SUCCESS ->
    exists w,
      run (acquisition_fails result connection error_code make activate) w0 = Some w
      /\ calls w
         = calls w0
           ++ [apply_signing_result_to_http_request result;
               connection_manager_acquire_connection
                 (Client.connection_manager (client rq))
                 s_s3_client_on_acquire_connection_fn;
               request_finish error_code]
      /\ holder w = Nobody.
Proof.
  intros client' now s sign rq w0 result connection error_code make activate
         Hstart Hcode.
  unfold s3_client_make_request in Hstart.
  destruct sign as [[]|e]; cbn in Hstart; [|discriminate Hstart].
  injection Hstart as <-.
  apply Z.eqb_neq in Hcode.
  unfold acquisition_fails.
  destruct connection as [c|];
    cbn; unfold s_s3_client_on_acquire_connection; rewrite Hcode; cbn;
    eexists; (split; [reflexivity|]); cbn; split; reflexivity.
Qed.

End PipelineNotifications.

Section PipelineNotificationRuns.
Import Pipeline.

Lemma make_request_outcome_witness :
  let rc := fst (s3_client_make_request Client.example_client 1000 (Succeeds 11)
                   (Succeeds tt) (fresh (example_request 0%nat))) in
  let w := snd (s3_client_make_request Client.example_client 1000 (Succeeds 11)
                  (Succeeds tt) (fresh (example_request 0%nat))) in
  (rc = AWS_OP_SUCCESS \/ rc = AWS_OP_ERR)
  /\ (rc = AWS_OP_SUCCESS <->
      (exists s, Succeeds 11 = Succeeds s) /\ (exists u, Succeeds tt = Succeeds u))
  /\ (rc = AWS_OP_SUCCESS <-> holder w = Signer s_s3_client_signing_complete_fn)
  /\ (rc = AWS_OP_ERR <-> holder w = Nobody)
  /\ ((exists s config, In (sign_request_aws s config s_s3_client_signing_complete_fn)
                          (calls w))
      <-> exists s, Succeeds 11 = Succeeds s)
  /\ signable (request w) = Some 11
  /\ notifications (calls w) = [].
Proof.
  apply (@make_request_outcome nat Client.example_client 1000 (Succeeds 11)
           (Succeeds tt) (example_request 0%nat)).
  vm_compute. discriminate.
Defined.

Lemma notifications_follow_events_witness :
  notifications (calls (after_events counting_request scenario_a accepted_start))
  = flat_map notifications_of scenario_a.
Proof.
  apply (@notifications_follow_events nat counting_request
           Client.example_client 1000 (Succeeds 11) (Succeeds tt) (example_request 0%nat)
           AWS_OP_SUCCESS accepted_start scenario_a
           (after_events counting_request scenario_a accepted_start)).
  - reflexivity.
  - vm_compute. reflexivity.
Defined.

Lemma finish_is_final_witness :
  (exists before code,
      calls (after_events counting_request scenario_a accepted_start)
      = before ++ [request_finish code])
  /\ forall e,
      @deliver nat counting_request e
        (after_events counting_request scenario_a accepted_start) = None.
Proof.
  apply (@finish_is_final nat counting_request
           Client.example_client 1000 (Succeeds 11) (Succeeds tt) (example_request 0%nat)
           AWS_OP_SUCCESS accepted_start scenario_a
           (after_events counting_request scenario_a accepted_start)).
  - reflexivity.
  - vm_compute. reflexivity.
  - vm_compute. discriminate.
Defined.

Lemma acquisition_failure_only_finishes_witness :
  exists w,
    @run nat counting_request
      (acquisition_fails [example_header] None 42 (Succeeds 0) (Succeeds tt))
      accepted_start = Some w
    /\ calls w
       = calls accepted_start
         ++ [apply_signing_result_to_http_request [example_header];
             connection_manager_acquire_connection
               (Client.connection_manager (client (example_request 0%nat)))
               s_s3_client_on_acquire_connection_fn;
             request_finish 42]
    /\ holder w = Nobody.
Proof.
  apply (@acquisition_failure_only_finishes nat counting_request
           Client.example_client 1000 11 (Succeeds tt) (example_request 0%nat)
           accepted_start [example_header] None 42 (Succeeds 0) (Succeeds tt)).
  - reflexivity.
  - vm_compute. discriminate.
Defined.

End PipelineNotificationRuns.
